(** * AvalonMinerTools: the protocol client of [avalon_miner_cli.py]

    A shallow embedding of the command codec, the response normaliser, the
    packed-field extractor, the unit formatters and the command executor of
    [src/avalon_miner_cli.py], with the properties the specification states
    about them.

    Python values are modelled as the interpreter has them: a [str] is a
    sequence of code points, a decoded JSON document is a tree of dicts,
    lists, strings and numbers, and an operation applied to a value of the
    wrong type raises. *)

From Stdlib Require Import List ZArith NArith Lia Bool String Ascii.
From Stdlib.Strings Require Import Byte.
From Stdlib Require Import SpecFloat.
From Stdlib Require Import DecimalString Decimal.
Import ListNotations.

Set Implicit Arguments.
Local Open Scope N_scope.

(** ** Python strings *)

Module PyStr.

(** A Python [str] is a sequence of Unicode code points. *)
Definition codepoint := N.
Definition pystr := list codepoint.

(** A string literal of the source (ASCII only). *)
Definition lit (s : string) : pystr :=
  map N_of_ascii (list_ascii_of_string s).

Fixpoint str_eqb (a b : pystr) : bool :=
  match a, b with
  | [], [] => true
  | x :: a', y :: b' => (x =? y) && str_eqb a' b'
  | _, _ => false
  end.

(** [s.startswith(p)] *)
Fixpoint startswith (p s : pystr) : bool :=
  match p, s with
  | [], _ => true
  | x :: p', y :: s' => (x =? y) && startswith p' s'
  | _ :: _, [] => false
  end.

(** [needle in hay] for two strings: substring test. *)
Fixpoint contains (needle hay : pystr) : bool :=
  startswith needle hay ||
  match hay with
  | [] => false
  | _ :: t => contains needle t
  end.

(** The substring relation [contains] decides. *)
Definition substring (needle hay : pystr) : Prop :=
  exists pre post, hay = pre ++ needle ++ post.

(** [str(n)] and [f"{n}"] for an [int]. *)
Definition str_of_int (z : Z) : pystr :=
  lit (NilZero.string_of_int (Z.to_int z)).

End PyStr.
Import PyStr.

(** ** Python results *)

(** The exceptions the modelled code can raise. *)
Inductive exn : Type :=
| TypeError
| KeyError
| IndexError
| AttributeError
| ValueError
| ConnectionError
| EOFError
| GenericException
| SystemExit (code : Z).

Inductive result (A : Type) : Type :=
| Ok (a : A)
| Raise (e : exn).
Arguments Ok {A} a.
Arguments Raise {A} e.

Definition bind {A B} (m : result A) (k : A -> result B) : result B :=
  match m with
  | Ok a => k a
  | Raise e => Raise e
  end.

Declare Scope py_scope.
Delimit Scope py_scope with py.
Notation "x <- m ;; k" := (bind m (fun x => k))
  (at level 61, m at next level, right associativity) : py_scope.
Local Open Scope py_scope.

(** ** Decoded JSON documents *)

(** What [json.loads] returns.  A dict keeps its keys in insertion order;
    a float literal is kept as the text the device sent. *)
#[warnings="-register-all"]
Inductive json : Type :=
| JNull
| JBool (b : bool)
| JInt (z : Z)
| JFloat (text : pystr)
| JStr (s : pystr)
| JArr (items : list json)
| JObj (fields : list (pystr * json)).

Module Dict.

(** [d.get(k)]: [None] when the key is missing. *)
Fixpoint get (k : pystr) (d : list (pystr * json)) : option json :=
  match d with
  | [] => None
  | (k', v) :: d' => if str_eqb k k' then Some v else get k d'
  end.

(** [d[k] = v]: overwrite in place, or append a new key. *)
Fixpoint set (k : pystr) (v : json) (d : list (pystr * json))
  : list (pystr * json) :=
  match d with
  | [] => [(k, v)]
  | (k', v') :: d' =>
      if str_eqb k k' then (k', v) :: d' else (k', v') :: set k v d'
  end.

End Dict.

(** *** The dynamically typed operations the source applies to a document *)

Definition is_list (x : json) : bool :=
  match x with JArr _ => true | _ => false end.

Definition is_str_eq (s : pystr) (x : json) : bool :=
  match x with JStr t => str_eqb s t | _ => false end.

(** [len(x)] *)
Definition py_len (x : json) : result N :=
  match x with
  | JStr s => Ok (N.of_nat (List.length s))
  | JArr l => Ok (N.of_nat (List.length l))
  | JObj d => Ok (N.of_nat (List.length d))
  | _ => Raise TypeError
  end.

(** [k in x] for a string [k]: key test on a dict, membership on a list,
    substring on a string. *)
Definition py_in (k : pystr) (x : json) : result bool :=
  match x with
  | JObj d => Ok (match Dict.get k d with Some _ => true | None => false end)
  | JArr l => Ok (existsb (is_str_eq k) l)
  | JStr s => Ok (contains k s)
  | _ => Raise TypeError
  end.

(** [x[k]] for a string [k]. *)
Definition py_getitem (x : json) (k : pystr) : result json :=
  match x with
  | JObj d => match Dict.get k d with Some v => Ok v | None => Raise KeyError end
  | _ => Raise TypeError
  end.

(** [x[0]]: a JSON dict has string keys only, so the integer key is missing. *)
Definition py_first (x : json) : result json :=
  match x with
  | JArr (v :: _) => Ok v
  | JArr [] => Raise IndexError
  | JStr (c :: _) => Ok (JStr [c])
  | JStr [] => Raise IndexError
  | JObj _ => Raise KeyError
  | _ => Raise TypeError
  end.

(** [x.get(k, default)] *)
Definition py_get (x : json) (k : pystr) (default : json) : result json :=
  match x with
  | JObj d => Ok (match Dict.get k d with Some v => v | None => default end)
  | _ => Raise AttributeError
  end.

(** ** The protocol codec *)

(** [json.dumps] and [json.loads] are Python's: the model follows the
    reference implementation of the [json] package ([encoder.py],
    [decoder.py], [scanner.py]), with the strict hexadecimal escapes of its
    C accelerator. *)
Module Codec.

(** *** Encoding: [json.dumps(obj, separators=(',', ':'))] *)

(** One digit of ["0123456789abcdef"]. *)
Definition hex_digit (d : N) : codepoint :=
  if d <? 10 then 48 + d else 87 + d.

(** ['{0:04x}'.format(n)] for [n < 0x10000]. *)
Definition hex4 (n : N) : pystr :=
  [ hex_digit (n / 4096 mod 16); hex_digit (n / 256 mod 16);
    hex_digit (n / 16 mod 16); hex_digit (n mod 16) ].

(** [\uXXXX] *)
Definition u_escape (n : N) : pystr := 92 :: 117 :: hex4 n.

(** The replacement [py_encode_basestring_ascii] makes for one character
    ([ensure_ascii] is on by default): printable ASCII is kept, the quote,
    the backslash and five control characters have short escapes, and
    everything else is written as [\uXXXX], a character beyond the basic
    plane as a surrogate pair. *)
Definition escape_char (c : codepoint) : pystr :=
  if c =? 34 then [92; 34]
  else if c =? 92 then [92; 92]
  else if c =? 10 then [92; 110]
  else if c =? 13 then [92; 114]
  else if c =? 9 then [92; 116]
  else if c =? 8 then [92; 98]
  else if c =? 12 then [92; 102]
  else if (32 <=? c) && (c <=? 126) then [c]
  else if c <? 65536 then u_escape c
  else
    let n := c - 65536 in
    let s1 := N.lor 55296 (N.land (N.shiftr n 10) 1023) in
    let s2 := N.lor 56320 (N.land n 1023) in
    u_escape s1 ++ u_escape s2.

(** A string value: quoted and escaped. *)
Definition dumps_str (s : pystr) : pystr :=
  34 :: flat_map escape_char s ++ [34].

Definition join_comma (parts : list pystr) : pystr :=
  match parts with
  | [] => []
  | p :: ps => p ++ flat_map (fun q => 44 :: q) ps
  end.

(** A document, with the item separator [,] and the key separator [:]. *)
Fixpoint dumps (j : json) : pystr :=
  match j with
  | JNull => lit "null"
  | JBool true => lit "true"
  | JBool false => lit "false"
  | JInt z => str_of_int z
  | JFloat text => text
  | JStr s => dumps_str s
  | JArr items => 91 :: join_comma (map dumps items) ++ [93]
  | JObj fields =>
      123 :: join_comma
               (map (fun kv => dumps_str (fst kv) ++ 58 :: dumps (snd kv))
                    fields) ++ [125]
  end.

(** *** Decoding: [json.loads] *)

(** The JSON whitespace [' \t\n\r']. *)
Definition is_json_ws (c : codepoint) : bool :=
  (c =? 32) || (c =? 9) || (c =? 10) || (c =? 13).

Fixpoint skip_ws (s : pystr) : pystr :=
  match s with
  | c :: t => if is_json_ws c then skip_ws t else s
  | [] => []
  end.

Definition hex_value (c : codepoint) : option N :=
  if (48 <=? c) && (c <=? 57) then Some (c - 48)
  else if (97 <=? c) && (c <=? 102) then Some (c - 87)
  else if (65 <=? c) && (c <=? 70) then Some (c - 55)
  else None.

(** [int(esc, 16)] on four hexadecimal digits. *)
Definition decode_hex4 (a b c d : codepoint) : option N :=
  match hex_value a, hex_value b, hex_value c, hex_value d with
  | Some x, Some y, Some z, Some w => Some (((x * 16 + y) * 16 + z) * 16 + w)
  | _, _, _, _ => None
  end.

Definition is_high_surrogate (u : N) : bool := (55296 <=? u) && (u <=? 56319).
Definition is_low_surrogate (u : N) : bool := (56320 <=? u) && (u <=? 57343).

(** [0x10000 + (((uni - 0xd800) << 10) | (uni2 - 0xdc00))] *)
Definition join_surrogates (uni uni2 : N) : N :=
  65536 + N.lor (N.shiftl (uni - 55296) 10) (uni2 - 56320).

(** The one-character escapes of [BACKSLASH]. *)
Definition backslash (esc : codepoint) : option codepoint :=
  if esc =? 34 then Some 34
  else if esc =? 92 then Some 92
  else if esc =? 47 then Some 47
  else if esc =? 98 then Some 8
  else if esc =? 102 then Some 12
  else if esc =? 110 then Some 10
  else if esc =? 114 then Some 13
  else if esc =? 116 then Some 9
  else None.

Definition cons_char (c : codepoint) (r : option (pystr * pystr))
  : option (pystr * pystr) :=
  match r with
  | Some (str, rest) => Some (c :: str, rest)
  | None => None
  end.

(** [scanstring], entered after the opening quote, in strict mode: the
    decoded string and the text after the closing quote.  A high
    surrogate escape followed by a low surrogate escape is joined into one
    character. *)
Fixpoint scanstring (s : pystr) : option (pystr * pystr) :=
  match s with
  | [] => None
  | c :: t =>
      if c =? 34 then Some ([], t)
      else if c =? 92 then
        match t with
        | [] => None
        | esc :: t1 =>
            if esc =? 117 then
              match t1 with
              | h1 :: h2 :: h3 :: h4 :: t2 =>
                  match decode_hex4 h1 h2 h3 h4 with
                  | None => None
                  | Some uni =>
                      match t2 with
                      | b :: u :: g1 :: g2 :: g3 :: g4 :: t3 =>
                          if is_high_surrogate uni && (b =? 92) && (u =? 117)
                          then
                            match decode_hex4 g1 g2 g3 g4 with
                            | None => None
                            | Some uni2 =>
                                if is_low_surrogate uni2
                                then cons_char (join_surrogates uni uni2)
                                               (scanstring t3)
                                else cons_char uni (scanstring t2)
                            end
                          else cons_char uni (scanstring t2)
                      | _ => cons_char uni (scanstring t2)
                      end
                  end
              | _ => None
              end
            else
              match backslash esc with
              | Some ch => cons_char ch (scanstring t1)
              | None => None
              end
        end
      else if c <=? 31 then None
      else cons_char c (scanstring t)
  end.

Definition is_digit (c : codepoint) : bool := (48 <=? c) && (c <=? 57).

(** The longest prefix of digits, and what follows it. *)
Fixpoint span_digits (s : pystr) : pystr * pystr :=
  match s with
  | c :: t =>
      if is_digit c
      then let (ds, rest) := span_digits t in (c :: ds, rest)
      else ([], s)
  | [] => ([], [])
  end.

Definition digits_value (ds : pystr) : Z :=
  fold_left (fun acc c => (acc * 10 + Z.of_N (c - 48))%Z) ds 0%Z.

(** The integer part of [NUMBER_RE]: an optional minus sign, then a
    single zero or a digit string that does not start with zero. *)
Definition scan_integer (s : pystr) : option (pystr * pystr) :=
  let (sign, body) :=
    match s with
    | c :: t => if c =? 45 then ([45], t) else ([], s)
    | [] => ([], [])
    end in
  match body with
  | c :: t =>
      if c =? 48 then Some (sign ++ [48], t)
      else if is_digit c
           then let (ds, rest) := span_digits body in Some (sign ++ ds, rest)
           else None
  | [] => None
  end.

(** The optional fraction: a dot and one or more digits. *)
Definition scan_frac (s : pystr) : pystr * pystr :=
  match s with
  | c :: t =>
      if c =? 46 then
        match span_digits t with
        | ([], _) => ([], s)
        | (ds, rest) => (46 :: ds, rest)
        end
      else ([], s)
  | [] => ([], [])
  end.

(** The optional exponent: e or E, an optional sign, one or more
    digits. *)
Definition scan_exp (s : pystr) : pystr * pystr :=
  match s with
  | e :: t =>
      if (e =? 101) || (e =? 69) then
        let (sign, body) :=
          match t with
          | c :: t' => if (c =? 45) || (c =? 43) then ([c], t') else ([], t)
          | [] => ([], [])
          end in
        match span_digits body with
        | ([], _) => ([], s)
        | (ds, rest) => (e :: sign ++ ds, rest)
        end
      else ([], s)
  | [] => ([], [])
  end.

Definition int_of_text (text : pystr) : Z :=
  match text with
  | c :: ds => if c =? 45 then (- digits_value ds)%Z else digits_value text
  | [] => 0%Z
  end.

(** A number: an [int] when it has neither fraction nor exponent, a
    [float] otherwise. *)
Definition scan_number (s : pystr) : option (json * pystr) :=
  match scan_integer s with
  | None => None
  | Some (int_text, r1) =>
      let (frac, r2) := scan_frac r1 in
      let (exp, r3) := scan_exp r2 in
      match frac, exp with
      | [], [] => Some (JInt (int_of_text int_text), r3)
      | _, _ => Some (JFloat (int_text ++ frac ++ exp), r3)
      end
  end.

(** [s[idx:idx+len(word)] == word] *)
Definition strip_word (word s : pystr) : option pystr :=
  if startswith word s then Some (skipn (List.length word) s) else None.

Definition scan_constant (s : pystr) : option (json * pystr) :=
  match strip_word (lit "null") s with
  | Some r => Some (JNull, r)
  | None =>
  match strip_word (lit "true") s with
  | Some r => Some (JBool true, r)
  | None =>
  match strip_word (lit "false") s with
  | Some r => Some (JBool false, r)
  | None =>
  match strip_word (lit "NaN") s with
  | Some r => Some (JFloat (lit "NaN"), r)
  | None =>
  match strip_word (lit "Infinity") s with
  | Some r => Some (JFloat (lit "Infinity"), r)
  | None =>
  match strip_word (lit "-Infinity") s with
  | Some r => Some (JFloat (lit "-Infinity"), r)
  | None => None
  end end end end end end.

(** [scan_once], [JSONObject] and [JSONArray].  [fuel] bounds the number
    of nested calls; the length of the text is always enough. *)
Fixpoint scan_once (fuel : nat) (s : pystr) : option (json * pystr) :=
  match fuel with
  | O => None
  | S fuel' =>
      match s with
      | [] => None
      | c :: t =>
          if c =? 34 then
            match scanstring t with
            | Some (str, rest) => Some (JStr str, rest)
            | None => None
            end
          else if c =? 123 then
            match skip_ws t with
            | c' :: t' =>
                if c' =? 125 then Some (JObj [], t')
                else if c' =? 34 then scan_members fuel' [] t'
                else None
            | [] => None
            end
          else if c =? 91 then
            match skip_ws t with
            | c' :: t' =>
                if c' =? 93 then Some (JArr [], t')
                else scan_items fuel' [] (c' :: t')
            | [] => None
            end
          else
            match scan_number s with
            | Some r => Some r
            | None => scan_constant s
            end
      end
  end

(** The loop of [JSONObject], entered after the opening quote of a key;
    [pairs] is the dict built so far. *)
with scan_members (fuel : nat) (pairs : list (pystr * json)) (s : pystr)
     : option (json * pystr) :=
  match fuel with
  | O => None
  | S fuel' =>
      match scanstring s with
      | None => None
      | Some (key, r1) =>
          match skip_ws r1 with
          | colon :: r2 =>
              if colon =? 58 then
                match scan_once fuel' (skip_ws r2) with
                | None => None
                | Some (value, r3) =>
                    let pairs' := Dict.set key value pairs in
                    match skip_ws r3 with
                    | d :: r4 =>
                        if d =? 125 then Some (JObj pairs', r4)
                        else if d =? 44 then
                          match skip_ws r4 with
                          | q :: r5 =>
                              if q =? 34 then scan_members fuel' pairs' r5
                              else None
                          | [] => None
                          end
                        else None
                    | [] => None
                    end
                end
              else None
          | [] => None
          end
      end
  end

(** The loop of [JSONArray]; [items] is the list built so far. *)
with scan_items (fuel : nat) (items : list json) (s : pystr)
     : option (json * pystr) :=
  match fuel with
  | O => None
  | S fuel' =>
      match scan_once fuel' s with
      | None => None
      | Some (value, r1) =>
          let items' := items ++ [value] in
          match skip_ws r1 with
          | d :: r2 =>
              if d =? 93 then Some (JArr items', r2)
              else if d =? 44 then scan_items fuel' items' (skip_ws r2)
              else None
          | [] => None
          end
      end
  end.

(** [json.loads(s)]: one document, surrounded by JSON whitespace only;
    [None] is [JSONDecodeError]. *)
Definition loads (s : pystr) : option json :=
  match scan_once (S (List.length s)) (skip_ws s) with
  | Some (value, rest) =>
      match skip_ws rest with
      | [] => Some value
      | _ :: _ => None
      end
  | None => None
  end.

End Codec.

(** ** Unit formatters: work mode *)

Definition mode_map : list (pystr * pystr) :=
  [ (lit "0", lit "Eco"); (lit "1", lit "Standard"); (lit "2", lit "Super") ].

Fixpoint lookup_str (k : pystr) (d : list (pystr * pystr)) : option pystr :=
  match d with
  | [] => None
  | (k', v) :: d' => if str_eqb k k' then Some v else lookup_str k d'
  end.

(** [get_work_mode_name], source lines 156-163. *)
Definition get_work_mode_name (mode_value : pystr) : pystr :=
  match lookup_str mode_value mode_map with
  | Some name => name
  | None => lit "Unknown (" ++ mode_value ++ lit ")"
  end.

(** ** Unit formatters: difficulty *)

(** Python's [float] is IEEE 754 binary64, modelled by the executable
    specification of the standard library: a sign, a mantissa and an
    exponent, with round-to-nearest-even operations. *)
Module Float.

Definition prec : Z := 53.
Definition emax : Z := 1024.

Definition float := spec_float.

(** The float nearest to an integer: a literal such as [1e15], or
    [float(n)]. *)
Definition of_Z (z : Z) : float := binary_normalize prec emax z 0 false.

(** [x / y] *)
Definition div (x y : float) : float := SFdiv prec emax x y.

(** [x >= y] *)
Definition geb (x y : float) : bool := SFleb y x.

(** [x < y] *)
Definition ltb (x y : float) : bool := SFltb x y.

(** The integer nearest to [num / den], ties to even. *)
Definition round_half_even (num den : Z) : Z :=
  let q := (num / den)%Z in
  let r := (num mod den)%Z in
  match (2 * r ?= den)%Z with
  | Lt => q
  | Gt => (q + 1)%Z
  | Eq => if Z.even q then q else (q + 1)%Z
  end.

(** [m * 2^e] in hundredths, correctly rounded. *)
Definition hundredths (m : positive) (e : Z) : Z :=
  if (0 <=? e)%Z then (Zpos m * 2 ^ e * 100)%Z
  else round_half_even (Zpos m * 100) (2 ^ (- e)).

Definition sign_text (s : bool) : pystr := if s then lit "-" else [].

Definition two_digits (n : Z) : pystr :=
  [48 + Z.to_N (n / 10); 48 + Z.to_N (n mod 10)].

(** [f"{x:.2f}"]: the shortest way to say it is the exact binary value,
    rounded to two decimals with ties to even. *)
Definition format_2f (x : float) : pystr :=
  match x with
  | S754_nan => lit "nan"
  | S754_infinity s => sign_text s ++ lit "inf"
  | S754_zero s => sign_text s ++ lit "0.00"
  | S754_finite s m e =>
      let h := hundredths m e in
      sign_text s ++ str_of_int (h / 100) ++ 46 :: two_digits (h mod 100)
  end.

End Float.

(** [format_difficulty], source lines 118-131.  The argument is a [float],
    as annotated; an [int] read from a reply is converted by the division
    and by the format, exactly below 2^53. *)
Definition format_difficulty (diff : Float.float) : pystr :=
  if Float.geb diff (Float.of_Z (10 ^ 15)) then
    Float.format_2f (Float.div diff (Float.of_Z (10 ^ 15))) ++ lit " P"
  else if Float.geb diff (Float.of_Z (10 ^ 12)) then
    Float.format_2f (Float.div diff (Float.of_Z (10 ^ 12))) ++ lit " T"
  else if Float.geb diff (Float.of_Z (10 ^ 9)) then
    Float.format_2f (Float.div diff (Float.of_Z (10 ^ 9))) ++ lit " G"
  else if Float.geb diff (Float.of_Z (10 ^ 6)) then
    Float.format_2f (Float.div diff (Float.of_Z (10 ^ 6))) ++ lit " M"
  else if Float.geb diff (Float.of_Z (10 ^ 3)) then
    Float.format_2f (Float.div diff (Float.of_Z (10 ^ 3))) ++ lit " K"
  else Float.format_2f diff.

(** ** Status predicate and response normaliser *)

(** [check_status], source lines 166-174. *)
Definition check_status (response : json) : result bool :=
  present <- py_in (lit "STATUS") response ;;
  if present then
    st <- py_getitem response (lit "STATUS") ;;
    n <- py_len st ;;
    if 0 <? n then
      status <- (if is_list st then py_first st else Ok st) ;;
      status_msg <- py_get status (lit "Msg") (JStr []) ;;
      asc <- py_in (lit "ASC 0 set OK") status_msg ;;
      if asc then Ok true
      else
        ok <- py_in (lit "OK") status_msg ;;
        if ok then Ok true else Ok false
    else Ok false
  else Ok false.

(** The normalisation the source inlines wherever it reads a section, as
    [cmd_lcd] has it at lines 282-283: a guard on presence and length, then
    the first element of a list or the value itself.  [None] is the skipped
    branch. *)
Definition firstOf (response : json) (section : pystr)
  : result (option json) :=
  present <- py_in section response ;;
  if present then
    sec <- py_getitem response section ;;
    n <- py_len sec ;;
    if 0 <? n then
      if is_list sec then (x <- py_first sec ;; Ok (Some x))
      else Ok (Some sec)
    else Ok None
  else Ok None.

(** [cmd_info], line 356: [ver_response.get('VERSION', [{}])[0]]. *)
Definition cmd_info_ver (ver_response : json) : result json :=
  v <- py_get ver_response (lit "VERSION") (JArr [JObj []]) ;;
  py_first v.

(** [cmd_info], lines 360-361 (and 365-366 for [SUMMARY]):
    [x_list[0] if isinstance(x_list, list) and len(x_list) > 0 else {}]. *)
Definition cmd_info_section (response : json) (section : pystr)
  : result json :=
  x_list <- py_get response section (JArr []) ;;
  if is_list x_list then
    n <- py_len x_list ;;
    if 0 <? n then py_first x_list else Ok (JObj [])
  else Ok (JObj []).

(** ** The packed-field extractor *)

Module Regex.

(** The fragment of Python's [re] the extractor uses: a literal
    character, and the capturing group [([^c]+)], a greedy run of one or
    more characters other than [c]. *)
Inductive atom : Type :=
| Lit (c : codepoint)
| GroupPlusNot (c : codepoint).

Definition regex := list atom.

(** Length of the longest prefix of [s] free of [c]: what the greedy
    [[^c]+] consumes first. *)
Fixpoint run_length (c : codepoint) (s : pystr) : nat :=
  match s with
  | [] => 0%nat
  | x :: t => if x =? c then 0%nat else S (run_length c t)
  end.

(** Backtracking: try the continuation after [k] characters, then after
    [k-1], down to one character. *)
Fixpoint backtrack (k : nat) (s : pystr)
         (cont : pystr -> option (list pystr)) : option (list pystr) :=
  match k with
  | O => None
  | S k' =>
      match cont (skipn k s) with
      | Some groups => Some (firstn k s :: groups)
      | None => backtrack k' s cont
      end
  end.

(** [re.match] at the head of [s]: the captured groups on success. *)
Fixpoint match_here (re : regex) (s : pystr) : option (list pystr) :=
  match re with
  | [] => Some []
  | Lit c :: re' =>
      match s with
      | x :: t => if x =? c then match_here re' t else None
      | [] => None
      end
  | GroupPlusNot c :: re' =>
      backtrack (run_length c s) s (match_here re')
  end.

(** [re.search]: the leftmost start position that matches, the end of the
    string included. *)
Fixpoint search (re : regex) (s : pystr) : option (list pystr) :=
  match match_here re s with
  | Some groups => Some groups
  | None =>
      match s with
      | [] => None
      | _ :: t => search re t
      end
  end.

(** The characters with a meaning of their own in a pattern. *)
Definition is_meta (c : codepoint) : bool :=
  existsb (N.eqb c) (lit ".^$*+?{}[]\|()").

Definition literal (s : pystr) : Prop :=
  forall c, In c s -> is_meta c = false.

End Regex.

Definition lbracket : codepoint := 91.
Definition rbracket : codepoint := 93.

(** The pattern [rf'{field_name}\[([^\]]+)\]'] of line 151.  The source
    interpolates [field_name] unescaped; this is the compiled pattern for a
    name free of regex metacharacters, which is what every caller passes
    (WORKMODE, MPO, TMax, TAvg, TarT, Fan1, FanR). *)
Definition estats_pattern (field_name : pystr) : Regex.regex :=
  map Regex.Lit field_name ++
  [Regex.Lit lbracket; Regex.GroupPlusNot rbracket; Regex.Lit rbracket].

(** [parse_estats_field], source lines 148-153; [None] is Python's [None]. *)
Definition parse_estats_field (mm_id0 field_name : pystr) : option pystr :=
  match Regex.search (estats_pattern field_name) mm_id0 with
  | Some (group1 :: _) => Some group1
  | _ => None
  end.

(** ** Transport *)

Module Utf8.

Definition byte_of (n : N) : byte :=
  match Byte.of_N n with
  | Some b => b
  | None => Byte.x00
  end.

(** [str.encode('utf-8')] for one character; a surrogate cannot be
    encoded. *)
Definition encode_char (c : codepoint) : option (list byte) :=
  if c <? 128 then Some [byte_of c]
  else if c <? 2048 then
    Some [byte_of (192 + c / 64); byte_of (128 + c mod 64)]
  else if (55296 <=? c) && (c <=? 57343) then None
  else if c <? 65536 then
    Some [byte_of (224 + c / 4096); byte_of (128 + c / 64 mod 64);
          byte_of (128 + c mod 64)]
  else if c <? 1114112 then
    Some [byte_of (240 + c / 262144); byte_of (128 + c / 4096 mod 64);
          byte_of (128 + c / 64 mod 64); byte_of (128 + c mod 64)]
  else None.

(** [None] is [UnicodeEncodeError]. *)
Fixpoint encode (s : pystr) : option (list byte) :=
  match s with
  | [] => Some []
  | c :: t =>
      match encode_char c, encode t with
      | Some bs, Some rest => Some (bs ++ rest)
      | _, _ => None
      end
  end.

(** A continuation byte within [lo..hi]: its six payload bits. *)
Definition continuation (b : byte) (lo hi : N) : option N :=
  let n := Byte.to_N b in
  if (lo <=? n) && (n <=? hi) then Some (n mod 64) else None.

Definition cons_opt (c : codepoint) (r : option pystr) : option pystr :=
  match r with
  | Some s => Some (c :: s)
  | None => None
  end.

(** [bytes.decode('utf-8')], strict: overlong forms, surrogates and
    values beyond U+10FFFF are rejected.  [None] is
    [UnicodeDecodeError]. *)
Fixpoint decode (bs : list byte) : option pystr :=
  match bs with
  | [] => Some []
  | b0 :: t =>
      let n0 := Byte.to_N b0 in
      if n0 <? 128 then cons_opt n0 (decode t)
      else if (194 <=? n0) && (n0 <=? 223) then
        match t with
        | b1 :: t1 =>
            match continuation b1 128 191 with
            | Some x1 => cons_opt ((n0 - 192) * 64 + x1) (decode t1)
            | None => None
            end
        | _ => None
        end
      else if (224 <=? n0) && (n0 <=? 239) then
        match t with
        | b1 :: b2 :: t2 =>
            let lo := if n0 =? 224 then 160 else 128 in
            let hi := if n0 =? 237 then 159 else 191 in
            match continuation b1 lo hi, continuation b2 128 191 with
            | Some x1, Some x2 =>
                cons_opt ((n0 - 224) * 4096 + x1 * 64 + x2) (decode t2)
            | _, _ => None
            end
        | _ => None
        end
      else if (240 <=? n0) && (n0 <=? 244) then
        match t with
        | b1 :: b2 :: b3 :: t3 =>
            let lo := if n0 =? 240 then 144 else 128 in
            let hi := if n0 =? 244 then 143 else 191 in
            match continuation b1 lo hi, continuation b2 128 191,
                  continuation b3 128 191 with
            | Some x1, Some x2, Some x3 =>
                cons_opt ((n0 - 240) * 262144 + x1 * 4096 + x2 * 64 + x3)
                         (decode t3)
            | _, _, _ => None
            end
        | _ => None
        end
      else None
  end.

End Utf8.

(** [str.isspace] for one character: what [str.strip()] removes. *)
Definition is_space (c : codepoint) : bool :=
  ((9 <=? c) && (c <=? 13)) || ((28 <=? c) && (c <=? 32)) ||
  (c =? 133) || (c =? 160) || (c =? 5760) ||
  ((8192 <=? c) && (c <=? 8202)) || (c =? 8232) || (c =? 8233) ||
  (c =? 8239) || (c =? 8287) || (c =? 12288).

Fixpoint lstrip (drop : codepoint -> bool) (s : pystr) : pystr :=
  match s with
  | c :: t => if drop c then lstrip drop t else s
  | [] => []
  end.

Definition rstrip (drop : codepoint -> bool) (s : pystr) : pystr :=
  List.rev (lstrip drop (List.rev s)).

(** [s.rstrip('\x00').strip()] of line 96. *)
Definition strip_padding (s : pystr) : pystr :=
  let s1 := rstrip (N.eqb 0) s in
  rstrip is_space (lstrip is_space s1).

(** The text [send_command] builds at lines 59-67: the [parameter] key is
    written only when [params] is truthy, that is non-empty. *)
Definition json_cmd (command params : pystr) : pystr :=
  match params with
  | _ :: _ =>
      Codec.dumps (JObj [(lit "command", JStr command);
                         (lit "parameter", JStr params)])
  | [] => Codec.dumps (JObj [(lit "command", JStr command)])
  end.

(** The parsing of lines 96-97 under the handlers of lines 103-106: a
    [JSONDecodeError] becomes [ValueError], any other failure
    [Exception]. *)
Definition parse_response (response : list byte) : result json :=
  match Utf8.decode response with
  | None => Raise GenericException
  | Some text =>
      match Codec.loads (strip_padding text) with
      | Some document => Ok document
      | None => Raise ValueError
      end
  end.

(** *** The outside world *)

(** What one connection yields: a timeout or a socket error before any
    reply, or the bytes accumulated until the peer closed or a read timed
    out. *)
Inductive net_outcome : Type :=
| TimedOut
| SocketFailed
| Received (data : list byte).

(** What a run does that can be observed from outside. *)
Inductive event : Type :=
| Print (text : pystr)
| PrintValue (prefix : pystr) (value : json)
| PrintJson (document : json)
| Prompt (prompt : pystr)
| NetCall (command params : pystr) (payload : list byte).

(** The device answers the [n]-th connection of a run to the payload it
    receives; [stdin] holds the lines the caller will type. *)
Record world : Type := {
  device : nat -> list byte -> net_outcome;
  stdin : list pystr;
  trace : list event
}.

Definition is_net_call (e : event) : bool :=
  match e with NetCall _ _ _ => true | _ => false end.

(** The commands sent so far, with their parameter strings. *)
Fixpoint net_calls (t : list event) : list (pystr * pystr) :=
  match t with
  | [] => []
  | NetCall command params _ :: t' => (command, params) :: net_calls t'
  | _ :: t' => net_calls t'
  end.

Definition emit (e : event) (w : world) : world :=
  {| device := device w; stdin := stdin w; trace := trace w ++ [e] |}.

Definition IO (A : Type) : Type := world -> result A * world.

Definition ret {A} (a : A) : IO A := fun w => (Ok a, w).

Definition io_bind {A B} (m : IO A) (k : A -> IO B) : IO B :=
  fun w =>
    match m w with
    | (Ok a, w') => k a w'
    | (Raise e, w') => (Raise e, w')
    end.

Definition lift {A} (r : result A) : IO A := fun w => (r, w).

Declare Scope io_scope.
Delimit Scope io_scope with io.
Notation "x <- m ;; k" := (io_bind m (fun x => k))
  (at level 61, m at next level, right associativity) : io_scope.
Notation "m ;; k" := (io_bind m (fun _ => k))
  (at level 61, right associativity) : io_scope.

(** [print(text)] *)
Definition print (text : pystr) : IO unit :=
  fun w => (Ok tt, emit (Print text) w).

(** [print(f"{prefix}{value}")] for a decoded value. *)
Definition print_value (prefix : pystr) (value : json) : IO unit :=
  fun w => (Ok tt, emit (PrintValue prefix value) w).

(** [print(json.dumps(response, indent=2))] *)
Definition print_json (document : json) : IO unit :=
  fun w => (Ok tt, emit (PrintJson document) w).

(** [sys.exit(code)] *)
Definition sys_exit {A} (code : Z) : IO A :=
  fun w => (Raise (SystemExit code), w).

(** [input(prompt)]: the next line of [stdin], [EOFError] at its end. *)
Definition input (prompt : pystr) : IO pystr :=
  fun w =>
    match stdin w with
    | [] => (Raise EOFError, emit (Prompt prompt) w)
    | answer :: rest =>
        (Ok answer,
         {| device := device w; stdin := rest;
            trace := trace w ++ [Prompt prompt] |})
    end.

(** [AvalonMinerAPI.send_command], source lines 47-106.  [params] is
    [None] when the caller leaves the argument out; its default is the
    empty string.  One call opens one connection, writes the encoded
    command and parses what it received. *)
Definition send_command (command : pystr) (params : option pystr)
  : IO json :=
  fun w =>
    let params := match params with Some p => p | None => [] end in
    match Utf8.encode (json_cmd command params) with
    | None => (Raise GenericException, w)
    | Some payload =>
        let n := List.length (net_calls (trace w)) in
        let w' := emit (NetCall command params payload) w in
        match device w n payload with
        | TimedOut => (Raise ConnectionError, w')
        | SocketFailed => (Raise ConnectionError, w')
        | Received response => (parse_response response, w')
        end
    end.

(** The bytes [send_command] writes to the socket (line 76). *)
Definition wire_bytes (command : pystr) (params : option pystr)
  : option (list byte) :=
  Utf8.encode (json_cmd command
                        match params with Some p => p | None => [] end).

(** ** The command executor *)

(** The [argparse] namespace, with the attributes the modelled commands
    read. *)
Record Namespace : Type := {
  auto : bool;
  speed : option Z;
  min_speed : option Z;
  max_speed : option Z;
  voltage : Z;
  delay : Z;
  force : bool;
  json_out : bool
}.

Section Executor.
Local Open Scope io_scope.
Local Open Scope Z_scope.

(** [str.lower], the interpreter's Unicode lowercasing. *)
Variable lower : pystr -> pystr.

(** The report after a mutating command, as lines 483-489 have it. *)
Definition report (response : json) (success : pystr) (args : Namespace)
  : IO unit :=
  ok <- lift (check_status response) ;;
  (if ok : bool then print success
   else
     st <- lift (py_get response (lit "STATUS") (JObj [])) ;;
     msg <- lift (py_get st (lit "Msg") (JStr (lit "Unknown"))) ;;
     print_value (lit "Command response: ") msg) ;;
  if json_out args then print_json response else ret tt.

(** [cmd_set_fan_speed], source lines 456-489. *)
Definition cmd_set_fan_speed (args : Namespace) : IO unit :=
  pm <- (if auto args then ret (lit "0,fan-spd,-1", lit "Auto")
         else
           match speed args with
           | Some sp =>
               if negb ((25 <=? sp) && (sp <=? 100)) then
                 print (lit "Error: Fan speed must be between 25 and 100") ;;
                 sys_exit 1
               else
                 ret (lit "0,fan-spd," ++ str_of_int sp,
                      lit "Exact (" ++ str_of_int sp ++ lit "%)")
           | None =>
               match min_speed args, max_speed args with
               | Some mn, Some mx =>
                   if negb ((25 <=? mn) && (mn <=? 100) &&
                            ((25 <=? mx) && (mx <=? 100))) then
                     print (lit "Error: Fan speeds must be between 25 and 100") ;;
                     sys_exit 1
                   else if mn >? mx then
                     print (lit "Error: Minimum speed cannot be greater than maximum speed") ;;
                     sys_exit 1
                   else
                     ret (lit "0,fan-spd," ++ str_of_int mn ++ lit ".."
                            ++ str_of_int mx,
                          lit "Range (" ++ str_of_int mn ++ lit "-"
                            ++ str_of_int mx ++ lit "%)")
               | _, _ =>
                   print (lit "Error: Must specify --auto, --speed, or --min-speed and --max-speed") ;;
                   sys_exit 1
               end
           end) ;;
  print (10%N :: lit "Setting fan speed to " ++ snd pm ++ lit "...") ;;
  response <- send_command (lit "ascset") (Some (fst pm)) ;;
  report response (lit "Fan speed set successfully") args.

(** The confirmation of lines 654-658 and 682-686: [true] to proceed,
    [false] after "Operation cancelled". *)
Definition confirm_unless_forced (args : Namespace) (prompt : pystr)
  : IO bool :=
  if negb (force args) then
    confirm <- input prompt ;;
    if negb (str_eqb (lower confirm) (lit "yes")) then
      print (lit "Operation cancelled") ;;
      ret false
    else ret true
  else ret true.

(** [cmd_set_voltage], source lines 649-668. *)
Definition cmd_set_voltage (args : Namespace) : IO unit :=
  print (10%N :: lit "Setting voltage to " ++ str_of_int (voltage args)
           ++ lit "...") ;;
  print (lit "WARNING: Setting incorrect voltage can damage your miner!") ;;
  proceed <- confirm_unless_forced args
               (lit "Are you sure you want to proceed? (yes/no): ") ;;
  if proceed : bool then
    response <- send_command (lit "ascset")
                  (Some (lit "0,voltage," ++ str_of_int (voltage args))) ;;
    report response (lit "Voltage set successfully") args
  else ret tt.

(** [cmd_reboot], source lines 671-696. *)
Definition cmd_reboot (args : Namespace) : IO unit :=
  (if negb ((0 <=? delay args) && (delay args <=? 300)) then
     print (lit "Error: Delay must be between 0 and 300 seconds") ;;
     sys_exit 1
   else ret tt) ;;
  (if delay args >? 0 then
     print (10%N :: lit "Scheduling reboot in " ++ str_of_int (delay args)
              ++ lit " seconds...")
   else print (10%N :: lit "Rebooting miner immediately...")) ;;
  proceed <- confirm_unless_forced args
               (lit "Are you sure you want to reboot the miner? (yes/no): ") ;;
  if proceed : bool then
    response <- send_command (lit "ascset")
                  (Some (lit "0,reboot," ++ str_of_int (delay args))) ;;
    report response (lit "Reboot command sent successfully") args
  else ret tt.

End Executor.

(** Lowercasing on ASCII letters, the identity elsewhere: [str.lower]
    restricted to ASCII text. *)
Definition ascii_lower (s : pystr) : pystr :=
  map (fun c => if (65 <=? c) && (c <=? 90) then c + 32 else c) s.

(** Text a byte per character: what goes on the wire. *)
Definition ascii_text (s : pystr) : Prop := Forall (fun c => c < 128) s.

(** A character [json.dumps] writes as itself. *)
Definition plain_char (c : codepoint) : Prop :=
  32 <= c <= 126 /\ c <> 34 /\ c <> 92.

(** A Python [str] holds code points up to U+10FFFF. *)
Definition valid_str (s : pystr) : Prop := Forall (fun c => c < 1114112) s.

(** No high surrogate is immediately followed by a low surrogate. *)
Fixpoint no_surrogate_pair (s : pystr) : Prop :=
  match s with
  | [] => True
  | c :: t =>
      match t with
      | d :: _ =>
          Codec.is_high_surrogate c && Codec.is_low_surrogate d = false
      | [] => True
      end /\ no_surrogate_pair t
  end.

(** The round trip of the specification: the bytes [send_command] writes
    for the command, parsed back the way it parses a reply, hold the
    command name under [command] and the parameter string under
    [parameter]. *)
Definition round_trip (command params : pystr) : Prop :=
  exists payload document,
    wire_bytes command (Some params) = Some payload /\
    parse_response payload = Ok document /\
    py_getitem document (lit "command") = Ok (JStr command) /\
    py_getitem document (lit "parameter") = Ok (JStr params).

(** The text after a [\uXXXX] escape does not start with the escape of a
    low surrogate. *)
Definition follows_ok (t : pystr) : Prop :=
  forall g1 g2 g3 g4 t3,
    t = 92 :: 117 :: g1 :: g2 :: g3 :: g4 :: t3 ->
    exists y, Codec.decode_hex4 g1 g2 g3 g4 = Some y /\
              Codec.is_low_surrogate y = false.

(** A difficulty the claim speaks of: zero or a positive finite float. *)
Definition finite_nonneg (d : Float.float) : Prop :=
  match d with
  | S754_zero _ => True
  | S754_finite false _ _ => True
  | _ => False
  end.

(** A rendering with two decimals: some text, a dot and two digits. *)
Definition two_decimals (text : pystr) : Prop :=
  exists whole d1 d2,
    text = whole ++ [46; d1; d2] /\ 48 <= d1 <= 57 /\ 48 <= d2 <= 57.

(** [mm] holds, right after [pre], the token [name[v]]: the name, an
    opening bracket, a non-empty value free of closing brackets, and a
    closing bracket. *)
Definition token_at (name v pre post mm : pystr) : Prop :=
  mm = pre ++ name ++ lbracket :: v ++ rbracket :: post /\
  v <> [] /\ ~ In rbracket v.

(** ** The data model of the specification *)

Definition is_object (x : json) : bool :=
  match x with JObj _ => true | _ => false end.

(** A section value: a single object or a list of objects. *)
Definition section_shape (v : json) : bool :=
  match v with
  | JObj _ => true
  | JArr l => forallb is_object l
  | _ => false
  end.

(** A [RawResponse]: a mapping from section names to section values. *)
Definition RawResponse (r : json) : Prop :=
  exists d, r = JObj d /\
            forall k v, Dict.get k d = Some v -> section_shape v = true.

(** The normaliser in the words of the specification: the first element of
    a non-empty list, the bare object itself, absent otherwise. *)
Definition spec_firstOf (response : json) (section : pystr) : option json :=
  match response with
  | JObj d =>
      match Dict.get section d with
      | Some (JArr (x :: _)) => Some x
      | Some (JObj o) => Some (JObj o)
      | _ => None
      end
  | _ => None
  end.

(** The message of the [STATUS] entry, when there is one. *)
Definition status_message (response : json) : option json :=
  match spec_firstOf response (lit "STATUS") with
  | Some (JObj entry) => Dict.get (lit "Msg") entry
  | _ => None
  end.

(** A [StatusEntry] carries its message as a string. *)
Definition message_is_string (response : json) : Prop :=
  forall v, status_message response = Some v -> exists s, v = JStr s.

(** The tail of [check_status] (lines 171-174), run on the entry selected
    at line 170. *)
Definition entry_verdict (status : json) : result bool :=
  status_msg <- py_get status (lit "Msg") (JStr []) ;;
  asc <- py_in (lit "ASC 0 set OK") status_msg ;;
  if asc then Ok true
  else ok <- py_in (lit "OK") status_msg ;;
       if ok then Ok true else Ok false.

(** *** Sample documents *)

(** [{"STATUS":[{"STATUS":"S","Msg":"ASC 0 set OK"}]}] *)
Definition status_ok_response : json :=
  JObj [(lit "STATUS",
         JArr [JObj [(lit "STATUS", JStr (lit "S"));
                     (lit "Msg", JStr (lit "ASC 0 set OK"))]])].

(** [{"STATUS":[{"STATUS":"E","Code":14}]}]: an entry with no message. *)
Definition status_no_msg_response : json :=
  JObj [(lit "STATUS",
         JArr [JObj [(lit "STATUS", JStr (lit "E")); (lit "Code", JInt 14)]])].

(** [{"LCD":{}}], [{"LCD":{"a":1}}] and [{"LCD":[{"a":1}]}] *)
Definition lcd_empty_object : json := JObj [(lit "LCD", JObj [])].
Definition lcd_bare_object : json :=
  JObj [(lit "LCD", JObj [(lit "a", JInt 1)])].
Definition lcd_one_element : json :=
  JObj [(lit "LCD", JArr [JObj [(lit "a", JInt 1)]])].

(** [{"VERSION":[]}] and [{"VERSION":{"MODEL":"1246"}}] *)
Definition version_empty_list : json := JObj [(lit "VERSION", JArr [])].
Definition version_bare_object : json :=
  JObj [(lit "VERSION", JObj [(lit "MODEL", JStr (lit "1246"))])].

(** *** Sample runs *)

(** Range-mode arguments of [set-fan]. *)
Definition range_args (p1 p2 : Z) : Namespace :=
  {| auto := false; speed := None;
     min_speed := Some p1; max_speed := Some p2;
     voltage := 0; delay := 0; force := false; json_out := false |}.

(** A world whose device never answers and whose caller types nothing. *)
Definition silent_world : world :=
  {| device := fun _ _ => TimedOut; stdin := []; trace := [] |}.

(** The caller's answer is anything but an affirmative confirmation. *)
Definition declined (lower : pystr -> pystr) (answer : pystr) : Prop :=
  lower answer <> lit "yes".

Definition voltage_args : Namespace :=
  {| auto := false; speed := None; min_speed := None; max_speed := None;
     voltage := 1200; delay := 0; force := false; json_out := false |}.

(** A world where the caller types one line. *)
Definition answering (line : pystr) : world :=
  {| device := fun _ _ => SocketFailed; stdin := [line]; trace := [] |}.

(** ** Further formatters and commands *)

(** [format_uptime], source lines 134-140.  [//] and [%] are floor
    division and its remainder. *)
Definition format_uptime (seconds : Z) : pystr :=
  let days := (seconds / 86400)%Z in
  let hours := ((seconds mod 86400) / 3600)%Z in
  let minutes := ((seconds mod 3600) / 60)%Z in
  let secs := (seconds mod 60)%Z in
  str_of_int days ++ lit "d " ++ str_of_int hours ++ lit "h "
    ++ str_of_int minutes ++ lit "m " ++ str_of_int secs ++ lit "s".

(** [s.strip()] *)
Definition strip (s : pystr) : pystr :=
  rstrip is_space (lstrip is_space s).

(** [s.split(',')]: the pieces between commas, one piece for a string
    without comma, the empty string included. *)
Fixpoint split_comma (s : pystr) : list pystr :=
  match s with
  | [] => [[]]
  | c :: t =>
      if c =? 44 then [] :: split_comma t
      else
        match split_comma t with
        | piece :: pieces => (c :: piece) :: pieces
        | [] => [[c]]
        end
  end.

(** [x in ['0', '1', '2']] *)
Definition is_pool_digit (x : pystr) : bool :=
  str_eqb x (lit "0") || str_eqb x (lit "1") || str_eqb x (lit "2").

(** The namespaces of the other subcommands. *)
Record WorkModeArgs : Type := { mode : Z; mode_json : bool }.
Record TempArgs : Type := { temperature : Z; temp_json : bool }.
Record PoolArgs : Type := { pool_id : Z; pool_json : bool }.
Record SetPoolArgs : Type := {
  sp_pool_id : Z;
  url : pystr;
  username : pystr;
  pool_password : pystr;
  password : pystr;
  sp_json : bool
}.
Record PriorityArgs : Type := { priority : pystr; priority_json : bool }.

Section MoreCommands.
Local Open Scope io_scope.
Local Open Scope Z_scope.

(** [if args.json: print(json.dumps(response, indent=2))] *)
Definition dump_if (flag : bool) (response : json) : IO unit :=
  if flag then print_json response else ret tt.

(** The report of [cmd_set_work_mode], lines 507-515.  On a rejection the
    status is taken from a list or from a bare object. *)
Definition work_mode_report (response : json) (args : WorkModeArgs)
  : IO unit :=
  ok <- lift (check_status response) ;;
  (if ok : bool then print (lit "Work mode set successfully")
   else
     probe <- lift (py_get response (lit "STATUS") JNull) ;;
     status <- (if is_list probe then
                  st <- lift (py_get response (lit "STATUS")
                                (JArr [JObj []])) ;;
                  lift (py_first st)
                else lift (py_get response (lit "STATUS") (JObj []))) ;;
     msg <- lift (py_get status (lit "Msg") (JStr (lit "Unknown"))) ;;
     print_value (lit "Command response: ") msg) ;;
  dump_if (mode_json args) response.

(** [cmd_set_work_mode], source lines 492-515. *)
Definition cmd_set_work_mode (args : WorkModeArgs) : IO unit :=
  (if negb ((mode args =? 0) || (mode args =? 1) || (mode args =? 2)) then
     print (lit "Error: Work mode must be 0, 1, or 2") ;;
     sys_exit 1
   else ret tt) ;;
  print (10%N :: lit "Setting work mode to " ++ str_of_int (mode args)
           ++ lit " ("
           ++ (if mode args =? 0 then lit "Low/Eco"
               else if mode args =? 1 then lit "Medium/Standard"
               else lit "High/Super")
           ++ lit ")...") ;;
  response <- send_command (lit "ascset")
                (Some (lit "0,workmode,set," ++ str_of_int (mode args))) ;;
  work_mode_report response args.

(** The report of [cmd_set_target_temp], lines 527-534. *)
Definition target_temp_report (response : json) (args : TempArgs)
  : IO unit :=
  ok <- lift (check_status response) ;;
  (if ok : bool then
     print (lit "Target temperature set successfully") ;;
     print (10%N :: lit "Note: Temperature will reset to default when miner restarts or work mode changes")
   else
     st <- lift (py_get response (lit "STATUS") (JObj [])) ;;
     msg <- lift (py_get st (lit "Msg") (JStr (lit "Unknown"))) ;;
     print_value (lit "Command response: ") msg) ;;
  dump_if (temp_json args) response.

(** [cmd_set_target_temp], source lines 518-534. *)
Definition cmd_set_target_temp (args : TempArgs) : IO unit :=
  (if negb ((50 <=? temperature args) && (temperature args <=? 90)) then
     print (lit "Error: Temperature must be between 50 and 90" ++ [176%N; 67%N]) ;;
     sys_exit 1
   else ret tt) ;;
  print (10%N :: lit "Setting target temperature to "
           ++ str_of_int (temperature args) ++ [176%N; 67%N] ++ lit "...") ;;
  response <- send_command (lit "ascset")
                (Some (lit "0,target-temp," ++ str_of_int (temperature args))) ;;
  target_temp_report response args.

(** [cmd_reset_filter_clean], source lines 699-710. *)
Definition cmd_reset_filter_clean (args : Namespace) : IO unit :=
  print (10%N :: lit "Resetting filter clean reminder...") ;;
  response <- send_command (lit "ascset") (Some (lit "0,filter-clean,1")) ;;
  report response (lit "Filter clean reminder reset successfully") args.

(** The reply handling the pool commands share (lines 724-729): the
    message of the normalised status, when there is one. *)
Definition print_response (flag : bool) (response : json) : IO unit :=
  sel <- lift (firstOf response (lit "STATUS")) ;;
  match sel with
  | Some status =>
      msg <- lift (py_get status (lit "Msg") (JStr (lit "Unknown"))) ;;
      print_value (lit "Response: ") msg
  | None => ret tt
  end ;;
  dump_if flag response.

(** The guard [if not 0 <= args.pool_id <= 2] of the pool commands. *)
Definition check_pool_id (id : Z) : IO unit :=
  if negb ((0 <=? id) && (id <=? 2)) then
    print (lit "Error: Pool ID must be 0, 1, or 2") ;;
    sys_exit 1
  else ret tt.

(** [cmd_set_pool], source lines 713-729. *)
Definition cmd_set_pool (args : SetPoolArgs) : IO unit :=
  check_pool_id (sp_pool_id args) ;;
  print (10%N :: lit "Configuring pool " ++ str_of_int (sp_pool_id args)
           ++ lit "...") ;;
  response <- send_command (lit "setpool")
                (Some (lit "admin," ++ password args ++ lit ","
                         ++ str_of_int (sp_pool_id args) ++ lit ","
                         ++ url args ++ lit "," ++ username args ++ lit ","
                         ++ pool_password args)) ;;
  print_response (sp_json args) response.

(** [cmd_enable_pool], source lines 732-746. *)
Definition cmd_enable_pool (args : PoolArgs) : IO unit :=
  check_pool_id (pool_id args) ;;
  print (10%N :: lit "Enabling pool " ++ str_of_int (pool_id args)
           ++ lit "...") ;;
  response <- send_command (lit "enablepool")
                (Some (str_of_int (pool_id args))) ;;
  print_response (pool_json args) response.

(** [cmd_disable_pool], source lines 749-763. *)
Definition cmd_disable_pool (args : PoolArgs) : IO unit :=
  check_pool_id (pool_id args) ;;
  print (10%N :: lit "Disabling pool " ++ str_of_int (pool_id args)
           ++ lit "...") ;;
  response <- send_command (lit "disablepool")
                (Some (str_of_int (pool_id args))) ;;
  print_response (pool_json args) response.

(** [cmd_switch_pool], source lines 766-780. *)
Definition cmd_switch_pool (args : PoolArgs) : IO unit :=
  check_pool_id (pool_id args) ;;
  print (10%N :: lit "Switching to pool " ++ str_of_int (pool_id args)
           ++ lit "...") ;;
  response <- send_command (lit "switchpool")
                (Some (str_of_int (pool_id args))) ;;
  print_response (pool_json args) response.

(** [cmd_set_pool_priority], source lines 783-799: every piece between
    commas must strip to a pool id; the string is sent as typed. *)
Definition cmd_set_pool_priority (args : PriorityArgs) : IO unit :=
  let priorities := split_comma (priority args) in
  (if negb (forallb (fun p => is_pool_digit (strip p)) priorities) then
     print (lit "Error: Priority must be comma-separated pool IDs (0, 1, 2)") ;;
     sys_exit 1
   else ret tt) ;;
  print (10%N :: lit "Setting pool priority to: " ++ priority args) ;;
  response <- send_command (lit "poolpriority") (Some (priority args)) ;;
  print_response (priority_json args) response.

End MoreCommands.

(** ** Reading the packed statistics *)

(** Whether the float a JSON number denotes is zero: its digits are all
    zero, or it is so small that binary64 rounds it to zero (at most
    2^-1075).  The text is split the way [Codec.scan_number] reads it. *)
Definition float_text_is_zero (text : pystr) : bool :=
  match Codec.scan_integer text with
  | None => false
  | Some (int_text, r1) =>
      let (frac, r2) := Codec.scan_frac r1 in
      let (exp, _) := Codec.scan_exp r2 in
      let int_digits :=
        match int_text with
        | c :: ds => if c =? 45 then ds else int_text
        | [] => []
        end in
      let frac_digits := match frac with _ :: ds => ds | [] => [] end in
      let exp_value :=
        match exp with
        | _ :: c :: ds =>
            if c =? 45 then (- Codec.digits_value ds)%Z
            else if c =? 43 then Codec.digits_value ds
            else Codec.digits_value (c :: ds)
        | _ => 0%Z
        end in
      let digits := Codec.digits_value (int_digits ++ frac_digits) in
      let scale := (exp_value - Z.of_nat (List.length frac_digits))%Z in
      (digits =? 0)%Z ||
      ((scale <? 0)%Z && (digits * 2 ^ 1075 <=? 10 ^ (- scale))%Z)
  end.

(** [bool(x)]: what [if x:] tests. *)
Definition py_truthy (x : json) : bool :=
  match x with
  | JNull => false
  | JBool b => b
  | JInt z => negb (z =? 0)%Z
  | JFloat text => negb (float_text_is_zero text)
  | JStr s => match s with [] => false | _ :: _ => true end
  | JArr l => match l with [] => false | _ :: _ => true end
  | JObj d => match d with [] => false | _ :: _ => true end
  end.

(** [parse_estats_field(mm_id0, name)] on a decoded value: [re.search]
    accepts a string only. *)
Definition parse_field (mm_id0 : json) (field_name : pystr)
  : result (option pystr) :=
  match mm_id0 with
  | JStr s => Ok (parse_estats_field s field_name)
  | _ => Raise TypeError
  end.

Section GetCommands.
Local Open Scope io_scope.

(** [cmd_get_work_mode], source lines 596-618. *)
Definition cmd_get_work_mode (args : Namespace) : IO unit :=
  response <- send_command (lit "estats") None ;;
  sel <- lift (firstOf response (lit "STATS")) ;;
  match sel with
  | Some stats =>
      mm_id0 <- lift (py_get stats (lit "MM ID0") (JStr [])) ;;
      if py_truthy mm_id0 then
        work_mode_val <- lift (parse_field mm_id0 (lit "WORKMODE")) ;;
        print (10 :: lit "=== Work Mode ===") ;;
        match work_mode_val with
        | Some (c :: v) =>
            print (lit "Current Mode     : "
                     ++ get_work_mode_name (c :: v)
                     ++ lit " (Mode " ++ (c :: v) ++ lit ")")
        | _ => print (lit "Error: Could not retrieve work mode")
        end ;;
        print []
      else print (lit "Error: Could not retrieve work mode information")
  | None => ret tt
  end ;;
  dump_if (json_out args) response.

End GetCommands.

(** A reply text with nothing to strip at either end: it starts with a
    character that is not whitespace and ends with one that is neither
    whitespace nor NUL. *)
Definition tight (text : pystr) : Prop :=
  exists first body final,
    text = first :: body /\ text = List.removelast text ++ [final] /\
    is_space first = false /\ is_space final = false /\ final <> 0.

(** Whitespace of the ASCII range. *)
Definition ascii_space (s : pystr) : Prop :=
  Forall (fun c => is_space c = true /\ c < 128) s.

(** NUL padding. *)
Definition nul_padding (s : pystr) : Prop := Forall (fun c => c = 0) s.

(** A computation that opens no connection. *)
Definition quiet {A} (m : IO A) : Prop :=
  forall w, net_calls (trace (snd (m w))) = net_calls (trace w).

(** [set-fan --auto] together with an exact speed and a range. *)
Definition conflicting_fan_args : Namespace :=
  {| auto := true; speed := Some 10%Z;
     min_speed := Some 90%Z; max_speed := Some 30%Z;
     voltage := 0; delay := 0; force := false; json_out := false |}.

(** [{"STATUS":[{"STATUS":"E","Msg":"Error: invalid"}]}]: a rejection,
    in the list shape the device uses. *)
Definition status_rejected_response : json :=
  JObj [(lit "STATUS",
         JArr [JObj [(lit "STATUS", JStr (lit "E"));
                     (lit "Msg", JStr (lit "Error: invalid"))]])].

Definition eco_args : WorkModeArgs := {| mode := 0; mode_json := false |}.

Definition temp_args (t : Z) : TempArgs :=
  {| temperature := t; temp_json := false |}.

Definition forced_reboot_args (d : Z) : Namespace :=
  {| auto := false; speed := None; min_speed := None; max_speed := None;
     voltage := 0; delay := d; force := true; json_out := false |}.

Definition pool_args (id : Z) : PoolArgs :=
  {| pool_id := id; pool_json := false |}.

Definition priority_args (text : pystr) : PriorityArgs :=
  {| priority := text; priority_json := false |}.

(** The guard of [cmd_set_pool_priority], line 787. *)
Definition accepted_priority (text : pystr) : bool :=
  forallb (fun p => is_pool_digit (strip p)) (split_comma text).

Definition set_pool_args (id : Z) : SetPoolArgs :=
  {| sp_pool_id := id; url := lit "stratum+tcp://pool.example.com:3333";
     username := lit "worker"; pool_password := lit "x";
     password := lit "root"; sp_json := false |}.

(** An [estats] reply as the device sends it, NUL-terminated. *)
Definition estats_reply : json :=
  JObj [(lit "STATS",
         JArr [JObj [(lit "MM ID0",
                      JStr (lit "Ver[1246] WORKMODE[1] MPO[850] Fan1[3120]"))]])].

Definition estats_world : world :=
  {| device := fun _ _ =>
                 Received (map Utf8.byte_of (Codec.dumps estats_reply ++ [0]));
     stdin := []; trace := [] |}.

(** [{"STATUS":[{"Msg":"Error"},{"Msg":"OK"}]}] *)
Definition status_error_then_ok : json :=
  JObj [(lit "STATUS",
         JArr [JObj [(lit "Msg", JStr (lit "Error"))];
               JObj [(lit "Msg", JStr (lit "OK"))]])].

(** * Properties *)

(** ** Strings *)

Lemma str_eqb_eq (a b : pystr) : str_eqb a b = true <-> a = b.
Proof.
  revert b; induction a as [|x a IH]; destruct b as [|y b]; simpl;
    try (split; congruence).
  rewrite andb_true_iff, N.eqb_eq, IH. split.
  - intros [-> ->]; reflexivity.
  - intros H; inversion H; auto.
Qed.

Lemma str_eqb_refl (a : pystr) : str_eqb a a = true.
Proof. apply str_eqb_eq; reflexivity. Qed.

Lemma str_eqb_neq (a b : pystr) : str_eqb a b = false <-> a <> b.
Proof.
  rewrite <- str_eqb_eq. destruct (str_eqb a b); split; congruence.
Qed.

Lemma startswith_iff (p s : pystr) :
  startswith p s = true <-> exists post, s = p ++ post.
Proof.
  revert s; induction p as [|x p IH]; intros s; simpl.
  - split; eauto.
  - destruct s as [|y s].
    + split; [discriminate | intros [post H]; discriminate].
    + rewrite andb_true_iff, N.eqb_eq, IH. split.
      * intros [-> [post ->]]; eauto.
      * intros [post H]; inversion H; eauto.
Qed.

Lemma contains_iff (needle hay : pystr) :
  contains needle hay = true <-> substring needle hay.
Proof.
  unfold substring. induction hay as [|c hay IH]; simpl.
  - rewrite orb_false_r, startswith_iff. split.
    + intros [post H]; exists [], post; exact H.
    + intros [pre [post H]]. destruct pre as [|? ?]; [eauto | discriminate].
  - rewrite orb_true_iff, startswith_iff, IH. split.
    + intros [[post H] | [pre [post H]]].
      * exists [], post; exact H.
      * exists (c :: pre), post; simpl; congruence.
    + intros [pre [post H]]. destruct pre as [|d pre]; simpl in H.
      * left; eauto.
      * right; inversion H; eauto.
Qed.

Lemma contains_app (needle pre s : pystr) :
  contains needle s = true -> contains needle (pre ++ s) = true.
Proof.
  rewrite !contains_iff. intros [a [b ->]].
  exists (pre ++ a), b. now rewrite <- app_assoc.
Qed.

(** ** Work-mode names *)

(** C7. [get_work_mode_name] is total: the codes "0", "1" and "2" map to
    "Eco", "Standard" and "Super", and every other string [code] maps to
    "Unknown (code)". *)
Theorem get_work_mode_name_total (code : pystr) :
  get_work_mode_name (lit "0") = lit "Eco" /\
  get_work_mode_name (lit "1") = lit "Standard" /\
  get_work_mode_name (lit "2") = lit "Super" /\
  (code <> lit "0" -> code <> lit "1" -> code <> lit "2" ->
   get_work_mode_name code = lit "Unknown (" ++ code ++ lit ")").
Proof.
  repeat split; try reflexivity.
  intros H0 H1 H2. unfold get_work_mode_name; simpl.
  apply str_eqb_neq in H0, H1, H2.
  now rewrite H0, H1, H2.
Qed.

Lemma get_work_mode_name_total_witness :
  lit "7" <> lit "0" /\ lit "7" <> lit "1" /\ lit "7" <> lit "2" /\
  get_work_mode_name (lit "7") = lit "Unknown (7)".
Proof.
  do 3 (split; [discriminate|]).
  apply (proj2 (proj2 (proj2 (get_work_mode_name_total (lit "7")))));
    discriminate.
Defined.

(** ** The status predicate *)

Lemma py_in_str (k s : pystr) : py_in k (JStr s) = Ok (contains k s).
Proof. reflexivity. Qed.

(** The first test of line 172 is subsumed by the second. *)
Lemma asc_ok_subsumed (s : pystr) :
  contains (lit "ASC 0 set OK") s = true -> contains (lit "OK") s = true.
Proof.
  rewrite !contains_iff. intros [pre [post ->]].
  exists (pre ++ lit "ASC 0 set "), post.
  rewrite <- app_assoc. reflexivity.
Qed.

(** What [check_status] computes once the entry is known to be a dict. *)
Lemma check_status_entry (entry : list (pystr * json)) (msg : pystr) :
  match Dict.get (lit "Msg") entry with
  | Some v => v = JStr msg
  | None => msg = []
  end ->
  (status_msg <- py_get (JObj entry) (lit "Msg") (JStr []) ;;
   asc <- py_in (lit "ASC 0 set OK") status_msg ;;
   if asc then Ok true
   else ok <- py_in (lit "OK") status_msg ;;
        if ok then Ok true else Ok false)
  = Ok (contains (lit "OK") msg).
Proof.
  intros H. unfold py_get, bind at 1.
  assert (E : match Dict.get (lit "Msg") entry with
              | Some v => v | None => JStr [] end = JStr msg).
  { destruct (Dict.get (lit "Msg") entry); congruence. }
  rewrite E, !py_in_str. unfold bind.
  destruct (contains (lit "ASC 0 set OK") msg) eqn:A.
  - now rewrite (asc_ok_subsumed _ A).
  - now destruct (contains (lit "OK") msg).
Qed.

Lemma check_status_selected (d : list (pystr * json)) (x : json) :
  spec_firstOf (JObj d) (lit "STATUS") = Some x ->
  check_status (JObj d) = entry_verdict x.
Proof.
  unfold spec_firstOf, check_status, py_in, py_getitem.
  destruct (Dict.get (lit "STATUS") d) as [[| | | | |[|y l]|[|f o]]|];
    try discriminate; intros [= <-]; reflexivity.
Qed.

Lemma check_status_unselected (r : json) :
  spec_firstOf r (lit "STATUS") = None -> check_status r <> Ok true.
Proof.
  destruct r as [| | | | s | l | d]; try discriminate.
  - intros _. unfold check_status, py_in, bind.
    destruct (contains (lit "STATUS") s); discriminate.
  - intros _. unfold check_status, py_in, bind.
    destruct (existsb (is_str_eq (lit "STATUS")) l); discriminate.
  - unfold spec_firstOf, check_status, py_in, py_getitem.
    destruct (Dict.get (lit "STATUS") d) as [[| | | |[|c s]|[|y l]|o]|];
      discriminate.
Qed.

Lemma entry_verdict_true (x : json) :
  (forall e v, x = JObj e -> Dict.get (lit "Msg") e = Some v ->
               exists s, v = JStr s) ->
  entry_verdict x = Ok true <->
  exists e msg, x = JObj e /\ Dict.get (lit "Msg") e = Some (JStr msg) /\
                substring (lit "OK") msg.
Proof.
  intros Hstr. destruct x as [| | | | | |e];
    try (split; [discriminate | intros (e & msg & H & _); discriminate]).
  unfold entry_verdict.
  destruct (Dict.get (lit "Msg") e) as [v|] eqn:Hm.
  - destruct (Hstr e v eq_refl Hm) as [s ->].
    rewrite (@check_status_entry e s) by now rewrite Hm.
    split.
    + intros [= Hc]. exists e, s. now rewrite <- contains_iff.
    + intros (e' & msg & [= <-] & Hg & Hsub).
      rewrite Hm in Hg. injection Hg as <-.
      apply contains_iff in Hsub. now rewrite Hsub.
  - rewrite (@check_status_entry e []) by now rewrite Hm.
    split; [discriminate|].
    intros (e' & msg & [= <-] & Hg & _). congruence.
Qed.

Lemma entry_verdict_returns (e : list (pystr * json)) :
  (forall v, Dict.get (lit "Msg") e = Some v -> exists s, v = JStr s) ->
  exists b, entry_verdict (JObj e) = Ok b.
Proof.
  intros Hstr. unfold entry_verdict.
  destruct (Dict.get (lit "Msg") e) as [v|] eqn:Hm.
  - destruct (Hstr v eq_refl) as [s ->].
    rewrite (@check_status_entry e s) by now rewrite Hm. eauto.
  - rewrite (@check_status_entry e []) by now rewrite Hm. eauto.
Qed.

(** C1. On every decoded response whose status message, when present, is a
    string, [check_status] returns true exactly when the STATUS section is
    present and its message contains "OK"; it returns without raising on
    every response of the data model.  The message "ASC 0 set OK" is a
    success and "Error: invalid" a failure. *)
Theorem check_status_iff_OK (r : json) :
  message_is_string r ->
  (check_status r = Ok true <->
   exists msg, status_message r = Some (JStr msg) /\
               substring (lit "OK") msg) /\
  (RawResponse r -> exists b, check_status r = Ok b) /\
  (status_message r = Some (JStr (lit "ASC 0 set OK")) ->
   check_status r = Ok true) /\
  (status_message r = Some (JStr (lit "Error: invalid")) ->
   check_status r = Ok false).
Proof.
  intros Hstr.
  assert (Hiff : check_status r = Ok true <->
                 exists msg, status_message r = Some (JStr msg) /\
                             substring (lit "OK") msg).
  { unfold message_is_string, status_message in *.
    destruct (spec_firstOf r (lit "STATUS")) as [x|] eqn:Hsel.
    - assert (exists d, r = JObj d) as [d ->].
      { destruct r; try discriminate; eauto. }
      rewrite (check_status_selected _ Hsel), entry_verdict_true.
      + split.
        * intros (e & msg & -> & Hg & Hsub); eauto.
        * intros (msg & Hg & Hsub). destruct x; try discriminate. eauto 6.
      + intros e v -> Hg. apply Hstr. exact Hg.
    - split.
      + intros H. now apply check_status_unselected in H.
      + intros (msg & H & _); discriminate. }
  split; [exact Hiff|]. split; [|split].
  - intros (d & -> & Hshape).
    destruct (spec_firstOf (JObj d) (lit "STATUS")) as [x|] eqn:Hsel.
    + rewrite (check_status_selected _ Hsel).
      assert (exists e, x = JObj e) as [e ->].
      { unfold spec_firstOf in Hsel.
        destruct (Dict.get (lit "STATUS") d) as [v|] eqn:Hg; [|discriminate].
        specialize (Hshape _ _ Hg).
        destruct v as [| | | | |[|y l]|o]; try discriminate.
        - injection Hsel as <-. simpl in Hshape.
          apply andb_true_iff in Hshape as [Hy _].
          destruct y; try discriminate; eauto.
        - injection Hsel as <-; eauto. }
      apply entry_verdict_returns. intros v Hm. apply Hstr.
      unfold status_message. now rewrite Hsel.
    + unfold spec_firstOf in Hsel. unfold check_status, py_in, py_getitem.
      destruct (Dict.get (lit "STATUS") d) as [v|] eqn:Hg; [|simpl; eauto].
      specialize (Hshape _ _ Hg).
      destruct v as [| | | | |[|y l]|o]; try discriminate; simpl; eauto.
  - intros H. apply Hiff. eexists; split; [exact H|].
    exists (lit "ASC 0 set "), []. reflexivity.
  - intros H. unfold status_message in H.
    destruct (spec_firstOf r (lit "STATUS")) as [x|] eqn:Hsel;
      [|discriminate].
    destruct x as [| | | | | |e]; try discriminate.
    assert (exists d, r = JObj d) as [d ->].
    { destruct r; try discriminate; eauto. }
    rewrite (check_status_selected _ Hsel). unfold entry_verdict.
    rewrite (@check_status_entry e (lit "Error: invalid")) by now rewrite H.
    reflexivity.
Qed.

Lemma check_status_iff_OK_witness :
  message_is_string status_ok_response /\
  check_status status_ok_response = Ok true.
Proof.
  assert (H : message_is_string status_ok_response).
  { intros v [= <-]. eexists; reflexivity. }
  split; [exact H|].
  apply (proj1 (proj2 (proj2 (check_status_iff_OK H)))). reflexivity.
Defined.

(** C9. When the STATUS key is absent, or maps to an empty list or an empty
    object, [check_status] returns false without raising; so it does when
    the selected entry has no 'Msg' field, the message then being the empty
    string. *)
Theorem check_status_absent_fails (d : list (pystr * json)) :
  (Dict.get (lit "STATUS") d = None \/
   Dict.get (lit "STATUS") d = Some (JArr []) \/
   Dict.get (lit "STATUS") d = Some (JObj []) ->
   check_status (JObj d) = Ok false) /\
  (forall entry rest,
      Dict.get (lit "Msg") entry = None ->
      Dict.get (lit "STATUS") d = Some (JObj entry) \/
      Dict.get (lit "STATUS") d = Some (JArr (JObj entry :: rest)) ->
      check_status (JObj d) = Ok false).
Proof.
  split.
  - unfold check_status, py_in, py_getitem.
    intros [H | [H | H]]; rewrite H; reflexivity.
  - intros entry rest Hm Hs.
    assert (Hsel : spec_firstOf (JObj d) (lit "STATUS") = Some (JObj entry)).
    { unfold spec_firstOf. destruct Hs as [H | H]; rewrite H; reflexivity. }
    rewrite (check_status_selected _ Hsel). unfold entry_verdict.
    rewrite (@check_status_entry entry []) by now rewrite Hm.
    reflexivity.
Qed.

Lemma check_status_absent_fails_witness :
  check_status (JObj []) = Ok false /\
  check_status status_no_msg_response = Ok false.
Proof.
  split.
  - apply (proj1 (check_status_absent_fails [])). left; reflexivity.
  - refine (proj2 (check_status_absent_fails _)
                   [(lit "STATUS", JStr (lit "E")); (lit "Code", JInt 14)]
                   [] _ _).
    + reflexivity.
    + right; reflexivity.
Defined.

(** ** The response normaliser *)

(** C2, as stated, fails: the guarded pattern reports an empty bare object
    as absent, not as the object itself; and the call sites of [cmd_info]
    raise on an empty list or a bare object (VERSION) or drop a bare object
    (LCD, SUMMARY). *)
Lemma firstOf_claim_counterexample :
  RawResponse lcd_empty_object /\
  firstOf lcd_empty_object (lit "LCD")
    <> Ok (spec_firstOf lcd_empty_object (lit "LCD")) /\
  cmd_info_ver version_empty_list = Raise IndexError /\
  cmd_info_ver version_bare_object = Raise KeyError /\
  cmd_info_section lcd_bare_object (lit "LCD") = Ok (JObj []) /\
  spec_firstOf lcd_bare_object (lit "LCD") = Some (JObj [(lit "a", JInt 1)]).
Proof.
  split.
  { exists [(lit "LCD", JObj [])]. split; [reflexivity|].
    intros k v. simpl. destruct (str_eqb k (lit "LCD")); [|discriminate].
    now intros [= <-]. }
  split; [discriminate|]. repeat split.
Qed.

(** C2, amended.  On a response object, the guarded normalisation yields
    the first element of a non-empty list, a non-empty bare object itself,
    and absent when the key is missing or maps to an empty list or an empty
    object; on every response of the data model it returns without
    raising. *)
Theorem firstOf_normalises (d : list (pystr * json)) (section : pystr) :
  (forall x rest, Dict.get section d = Some (JArr (x :: rest)) ->
                  firstOf (JObj d) section = Ok (Some x)) /\
  (forall f o, Dict.get section d = Some (JObj (f :: o)) ->
               firstOf (JObj d) section = Ok (Some (JObj (f :: o)))) /\
  (Dict.get section d = None \/
   Dict.get section d = Some (JArr []) \/
   Dict.get section d = Some (JObj []) ->
   firstOf (JObj d) section = Ok None) /\
  (RawResponse (JObj d) -> exists o, firstOf (JObj d) section = Ok o).
Proof.
  unfold firstOf, py_in, py_getitem. repeat split.
  - intros x rest H; rewrite H; reflexivity.
  - intros f o H; rewrite H; reflexivity.
  - intros [H | [H | H]]; rewrite H; reflexivity.
  - intros (d' & [= <-] & Hshape).
    destruct (Dict.get section d) as [v|] eqn:Hg; [|simpl; eauto].
    specialize (Hshape _ _ Hg).
    destruct v as [| | | | |[|y l]|[|f o]]; try discriminate; simpl; eauto.
Qed.

Lemma firstOf_normalises_witness :
  firstOf lcd_one_element (lit "LCD") = Ok (Some (JObj [(lit "a", JInt 1)])) /\
  firstOf lcd_bare_object (lit "LCD") = Ok (Some (JObj [(lit "a", JInt 1)])) /\
  firstOf (JObj []) (lit "LCD") = Ok None.
Proof.
  split; [|split].
  - refine (proj1 (firstOf_normalises _ _) _ [] _). reflexivity.
  - refine (proj1 (proj2 (firstOf_normalises _ _)) _ [] _). reflexivity.
  - apply (proj1 (proj2 (proj2 (firstOf_normalises [] (lit "LCD"))))).
    left; reflexivity.
Defined.

(** ** The packed-field extractor *)

Section Extractor.
Import Regex.

Lemma match_here_lits (name : pystr) (re : regex) (s : pystr) g :
  match_here (map Lit name ++ re) s = Some g <->
  exists t, s = name ++ t /\ match_here re t = Some g.
Proof.
  revert s; induction name as [|c name IH]; intros s; simpl.
  - split; [eauto | intros [t [-> H]]; exact H].
  - destruct s as [|x s].
    + split; [discriminate | intros [t [H _]]; discriminate].
    + destruct (N.eqb_spec x c) as [->|Hne].
      * rewrite IH. split.
        -- intros [t [-> H]]; eauto.
        -- intros [t [[= ->] H]]; eauto.
      * split; [discriminate | intros [t [[= ? ?] _]]; congruence].
Qed.

Lemma run_length_free (c : codepoint) (v post : pystr) :
  ~ In c v -> run_length c (v ++ c :: post) = List.length v.
Proof.
  induction v as [|x v IH]; simpl; intros Hn.
  - now rewrite N.eqb_refl.
  - destruct (N.eqb_spec x c) as [->|_]; [tauto|].
    rewrite IH; tauto.
Qed.

Lemma run_length_prefix (c : codepoint) (s : pystr) (j : nat) :
  (j <= run_length c s)%nat -> ~ In c (firstn j s).
Proof.
  revert j; induction s as [|x s IH]; intros j; simpl.
  - now rewrite firstn_nil.
  - destruct j as [|j]; simpl; [tauto|].
    destruct (N.eqb_spec x c) as [->|Hne]; [lia|].
    intros Hj [H|H]; [congruence|]. apply (IH j); [lia | exact H].
Qed.

Lemma backtrack_some k s cont g :
  backtrack k s cont = Some g ->
  exists j g', (1 <= j <= k)%nat /\ cont (skipn j s) = Some g' /\
               g = firstn j s :: g'.
Proof.
  induction k as [|k IH]; cbn [backtrack]; [discriminate|].
  destruct (cont (skipn (S k) s)) as [g'|] eqn:Hc.
  - intros [= <-]. exists (S k), g'. repeat split; auto; lia.
  - intros H. destruct (IH H) as (j & g' & Hj & Hg & ->).
    exists j, g'. repeat split; auto; lia.
Qed.

Lemma match_here_group (s : pystr) g :
  match_here [GroupPlusNot rbracket; Lit rbracket] s = Some g <->
  exists v post, s = v ++ rbracket :: post /\ v <> [] /\
                 ~ In rbracket v /\ g = [v].
Proof.
  simpl. split.
  - intros H. apply backtrack_some in H as (j & g' & Hj & Hc & ->).
    destruct (skipn j s) as [|x post] eqn:Hs; [discriminate|].
    destruct (N.eqb_spec x rbracket) as [->|]; [|discriminate].
    injection Hc as <-.
    exists (firstn j s), post. repeat split.
    + now rewrite <- Hs, firstn_skipn.
    + intros Hnil. apply (f_equal (@List.length _)) in Hnil.
      assert (Hlen : (List.length s <= j)%nat \/ (j <= List.length s)%nat)
        by lia.
      destruct Hlen as [Hlen|Hlen].
      * rewrite skipn_all2 in Hs by exact Hlen. discriminate.
      * rewrite length_firstn in Hnil. simpl in Hnil. lia.
    + apply run_length_prefix. lia.
  - intros (v & post & -> & Hne & Hfree & ->).
    rewrite run_length_free by exact Hfree.
    destruct v as [|x v]; [congruence|]. cbn [List.length backtrack].
    change (S (List.length v)) with (List.length (x :: v)).
    rewrite skipn_app, skipn_all, Nat.sub_diag.
    change (skipn 0 (rbracket :: post)) with (rbracket :: post).
    change ([] ++ rbracket :: post) with (rbracket :: post).
    cbv iota beta. rewrite (N.eqb_refl rbracket).
    rewrite firstn_app, firstn_all, Nat.sub_diag.
    change (firstn 0 (rbracket :: post)) with (@nil codepoint).
    now rewrite app_nil_r.
Qed.

Lemma match_here_estats (name s : pystr) g :
  match_here (estats_pattern name) s = Some g <->
  exists v post, s = name ++ lbracket :: v ++ rbracket :: post /\
                 v <> [] /\ ~ In rbracket v /\ g = [v].
Proof.
  unfold estats_pattern. rewrite match_here_lits. split.
  - intros (t & -> & H). destruct t as [|x t]; [discriminate|].
    cbn [match_here] in H.
    destruct (N.eqb_spec x lbracket) as [->|]; [|discriminate].
    apply match_here_group in H as (v & post & -> & H). eauto.
  - intros (v & post & -> & H). eexists; split; [reflexivity|].
    cbn [match_here]. rewrite N.eqb_refl.
    apply match_here_group. eauto.
Qed.

Lemma search_some (re : regex) (s : pystr) g :
  search re s = Some g <->
  exists pre t, s = pre ++ t /\ match_here re t = Some g /\
    forall pre' t', s = pre' ++ t' ->
                    (List.length pre' < List.length pre)%nat ->
                    match_here re t' = None.
Proof.
  induction s as [|x s IH]; simpl.
  - destruct (match_here re []) as [g'|] eqn:Hm.
    + split.
      * intros [= <-]. exists [], []. repeat split; auto.
        simpl; intros; lia.
      * intros (pre & t & H & Ht & _).
        symmetry in H. apply app_eq_nil in H as [-> ->]. congruence.
    + split; [discriminate|].
      intros (pre & t & H & Ht & _).
      symmetry in H. apply app_eq_nil in H as [-> ->]. congruence.
  - destruct (match_here re (x :: s)) as [g'|] eqn:Hm.
    + split.
      * intros [= <-]. exists [], (x :: s). repeat split; auto.
        simpl; intros; lia.
      * intros (pre & t & H & Ht & Hfirst).
        destruct pre as [|y pre].
        -- simpl in H; subst t. congruence.
        -- specialize (Hfirst [] (x :: s) eq_refl). simpl in Hfirst.
           rewrite Hfirst in Hm by lia. discriminate.
    + rewrite IH. split.
      * intros (pre & t & -> & Ht & Hfirst).
        exists (x :: pre), t. repeat split; auto.
        intros pre' t' H Hlen. destruct pre' as [|y pre'].
        -- simpl in H; subst t'. exact Hm.
        -- injection H as <- H. apply (Hfirst pre' t' H).
           simpl in Hlen; lia.
      * intros (pre & t & H & Ht & Hfirst).
        destruct pre as [|y pre].
        -- simpl in H; subst t. congruence.
        -- injection H as <- H. exists pre, t. repeat split; auto.
           intros pre' t' H' Hlen.
           apply (Hfirst (x :: pre') t'); simpl; [congruence | lia].
Qed.

Lemma search_none (re : regex) (s : pystr) :
  search re s = None <->
  forall pre t, s = pre ++ t -> match_here re t = None.
Proof.
  induction s as [|x s IH]; simpl.
  - destruct (match_here re []) as [g'|] eqn:Hm.
    + split; [discriminate|]. intros H.
      specialize (H [] [] eq_refl). congruence.
    + split; [|reflexivity]. intros _ pre t H.
      symmetry in H. apply app_eq_nil in H as [-> ->]. exact Hm.
  - destruct (match_here re (x :: s)) as [g'|] eqn:Hm.
    + split; [discriminate|]. intros H.
      specialize (H [] (x :: s) eq_refl). congruence.
    + rewrite IH. split.
      * intros H pre t Hs. destruct pre as [|y pre].
        -- simpl in Hs; subst t; exact Hm.
        -- injection Hs as <- Hs. eauto.
      * intros H pre t Hs. apply (H (x :: pre) t). simpl; congruence.
Qed.

End Extractor.

Lemma token_at_matches (name v pre post mm : pystr) :
  token_at name v pre post mm ->
  Regex.match_here (estats_pattern name)
                   (name ++ lbracket :: v ++ rbracket :: post) = Some [v].
Proof.
  intros (_ & Hne & Hfree). apply match_here_estats. eauto 6.
Qed.

Lemma prefix_same_length (pre pre' t t' : pystr) :
  pre ++ t = pre' ++ t' -> List.length pre = List.length pre' ->
  pre = pre' /\ t = t'.
Proof.
  revert pre'; induction pre as [|x pre IH]; destruct pre' as [|y pre'];
    simpl; try discriminate; auto.
  intros [= -> H] [= Hl]. destruct (IH _ H Hl) as [-> ->]. auto.
Qed.

(** C4, as stated, fails: an occurrence [name[]] does not yield the empty
    string.  The pattern asks for at least one character between the
    brackets, so the empty token is skipped: the result is absent, or the
    value of a later token of the same name. *)
Lemma parse_estats_field_claim_counterexample :
  substring (lit "Fan1[") (lit "Fan1[]") /\
  parse_estats_field (lit "Fan1[]") (lit "Fan1") <> Some [] /\
  parse_estats_field (lit "Fan1[]") (lit "Fan1") = None /\
  parse_estats_field (lit "Fan1[]Fan1[7]") (lit "Fan1") = Some (lit "7").
Proof.
  split; [exists [], (lit "]"); reflexivity|].
  split; [discriminate|]. split; reflexivity.
Qed.

(** C4, amended.  For a field name free of regex metacharacters,
    [parse_estats_field] returns [v] exactly when the leftmost token
    [name[v]] with a non-empty [v] free of "]" carries [v]: the name is
    matched literally and case-sensitively, the value stops before the next
    "]", and the first such token wins.  The result is absent exactly when
    the packed string holds no such token, in particular when [name[] does
    not occur. *)
Theorem parse_estats_field_spec (mm name : pystr) :
  Regex.literal name ->
  (forall v,
      parse_estats_field mm name = Some v <->
      exists pre post,
        token_at name v pre post mm /\
        forall pre' v' post',
          token_at name v' pre' post' mm ->
          (List.length pre <= List.length pre')%nat) /\
  (parse_estats_field mm name = None <->
   forall pre v post, ~ token_at name v pre post mm) /\
  (~ substring (name ++ [lbracket]) mm -> parse_estats_field mm name = None).
Proof.
  intros _.
  assert (Hnone : parse_estats_field mm name = None <->
                  forall pre v post, ~ token_at name v pre post mm).
  { unfold parse_estats_field.
    destruct (Regex.search (estats_pattern name) mm) as [g|] eqn:Hs.
    - apply search_some in Hs as (pre & t & -> & Hm & _).
      apply match_here_estats in Hm as (v & post & -> & Hne & Hfree & ->).
      split; [discriminate|]. intros H. exfalso.
      apply (H pre v post). repeat split; auto.
    - split; [|reflexivity]. intros _ pre v post Htok.
      pose proof (token_at_matches Htok) as Hm. destruct Htok as (-> & _).
      rewrite search_none in Hs. rewrite (Hs pre _ eq_refl) in Hm.
      discriminate. }
  split; [|split; [exact Hnone|]].
  - intros v. unfold parse_estats_field.
    destruct (Regex.search (estats_pattern name) mm) as [g|] eqn:Hs.
    + apply search_some in Hs as (pre & t & Hmm & Hm & Hfirst).
      apply match_here_estats in Hm as (v0 & post & -> & Hne & Hfree & ->).
      assert (Htok0 : token_at name v0 pre post mm) by (repeat split; auto).
      split.
      * intros [= <-]. exists pre, post. split; [exact Htok0|].
        intros pre' v' post' Htok'.
        destruct (Nat.le_gt_cases (List.length pre) (List.length pre'))
          as [Hle|Hlt]; [exact Hle|].
        pose proof (token_at_matches Htok') as Hm'.
        destruct Htok' as (Hmm' & _).
        rewrite (Hfirst pre' _ Hmm' Hlt) in Hm'. discriminate.
      * intros (pre1 & post1 & Htok1 & Hmin).
        pose proof (Hmin _ _ _ Htok0) as Hle.
        assert (Hge : (List.length pre <= List.length pre1)%nat).
        { destruct (Nat.le_gt_cases (List.length pre) (List.length pre1))
            as [H|Hlt]; [exact H|].
          pose proof (token_at_matches Htok1) as Hm1.
          destruct Htok1 as (Hmm1 & _).
          rewrite (Hfirst pre1 _ Hmm1 Hlt) in Hm1. discriminate. }
        pose proof (token_at_matches Htok1) as Hm1.
        pose proof (token_at_matches Htok0) as Hm0.
        destruct Htok1 as (Hmm1 & _).
        rewrite Hmm in Hmm1.
        destruct (prefix_same_length _ _ _ _ Hmm1) as [_ Ht]; [lia|].
        rewrite Ht in Hm0. congruence.
    + split; [discriminate|].
      intros (pre & post & Htok & _).
      pose proof (token_at_matches Htok) as Hm. destruct Htok as (-> & _).
      rewrite search_none in Hs. rewrite (Hs pre _ eq_refl) in Hm.
      discriminate.
  - intros Hnot. apply Hnone. intros pre v post (-> & _). apply Hnot.
    exists pre, (v ++ rbracket :: post). now rewrite <- app_assoc.
Qed.

Lemma parse_estats_field_spec_witness :
  Regex.literal (lit "TMax") /\
  ~ substring (lit "TMax" ++ [lbracket]) (lit "WORKMODE[1] MPO[850]") /\
  parse_estats_field (lit "WORKMODE[1] MPO[850]") (lit "TMax") = None.
Proof.
  assert (Hlit : Regex.literal (lit "TMax")).
  { intros c Hc. simpl in Hc.
    repeat (destruct Hc as [<- | Hc]; [reflexivity|]). contradiction. }
  assert (Hnot : ~ substring (lit "TMax" ++ [lbracket])
                             (lit "WORKMODE[1] MPO[850]")).
  { rewrite <- contains_iff. discriminate. }
  split; [exact Hlit|]. split; [exact Hnot|].
  exact (proj2 (proj2 (parse_estats_field_spec _ Hlit)) Hnot).
Defined.

(** Matching is case-sensitive, and the end-to-end values of the
    specification are extracted. *)
Example parse_estats_field_examples :
  parse_estats_field (lit "fan1[7]") (lit "Fan1") = None /\
  parse_estats_field (lit "WORKMODE[1] MPO[850]") (lit "WORKMODE")
    = Some (lit "1") /\
  parse_estats_field (lit "WORKMODE[1] MPO[850]") (lit "MPO")
    = Some (lit "850") /\
  parse_estats_field (lit "Fan1[12") (lit "Fan1") = None.
Proof. repeat split. Qed.

(** ** The command executor *)

Lemma net_calls_app (t1 t2 : list event) :
  net_calls (t1 ++ t2) = net_calls t1 ++ net_calls t2.
Proof.
  induction t1 as [|e t1 IH]; simpl; [reflexivity|].
  destruct e; simpl; congruence.
Qed.

(** The report prints, and does nothing else. *)
Lemma report_net_calls (response : json) (success : pystr)
      (args : Namespace) (w : world) :
  net_calls (trace (snd (report response success args w)))
  = net_calls (trace w).
Proof.
  unfold report, io_bind, lift, print, print_value, print_json, ret, emit.
  destruct (check_status response) as [[|]|e]; simpl.
  - destruct (json_out args); simpl; rewrite ?net_calls_app; simpl;
      now rewrite ?app_nil_r.
  - destruct (py_get response (lit "STATUS") (JObj [])) as [st|e];
      simpl; [|reflexivity].
    destruct (py_get st (lit "Msg") (JStr (lit "Unknown"))) as [msg|e];
      simpl; [|reflexivity].
    destruct (json_out args); simpl; rewrite ?net_calls_app; simpl;
      now rewrite ?app_nil_r.
  - reflexivity.
Qed.

(** One call of [send_command] adds one network call, whatever the device
    does. *)
Lemma send_command_net_calls (command params : pystr) (w : world) :
  Utf8.encode (json_cmd command params) <> None ->
  net_calls (trace (snd (send_command command (Some params) w)))
  = net_calls (trace w) ++ [(command, params)].
Proof.
  unfold send_command. intros Henc.
  destruct (Utf8.encode (json_cmd command params)) as [payload|];
    [|congruence].
  destruct (device w _ payload); simpl; rewrite net_calls_app; reflexivity.
Qed.

(** ** The wire text is ASCII *)

Lemma hex_digit_ascii (d : N) : d < 16 -> Codec.hex_digit d < 128.
Proof.
  intros H. unfold Codec.hex_digit. destruct (N.ltb_spec d 10); lia.
Qed.

Lemma hex4_ascii (n : N) : ascii_text (Codec.hex4 n).
Proof.
  unfold Codec.hex4, ascii_text.
  repeat constructor; apply hex_digit_ascii; apply N.mod_lt; discriminate.
Qed.

Lemma u_escape_ascii (n : N) : ascii_text (Codec.u_escape n).
Proof.
  unfold Codec.u_escape. constructor; [reflexivity|].
  constructor; [reflexivity|]. apply hex4_ascii.
Qed.

Lemma ascii_text_app (a b : pystr) :
  ascii_text a -> ascii_text b -> ascii_text (a ++ b).
Proof. intros Ha Hb. apply Forall_app; auto. Qed.

Lemma ascii_lit (s : string) :
  (forall a, In a (list_ascii_of_string s) -> N_of_ascii a < 128) ->
  ascii_text (lit s).
Proof.
  intros H. unfold lit, ascii_text. apply Forall_map, Forall_forall, H.
Qed.

Lemma escape_char_ascii (c : codepoint) : ascii_text (Codec.escape_char c).
Proof.
  unfold Codec.escape_char.
  repeat match goal with
         | |- ascii_text (if ?b then _ else _) => destruct b eqn:?
         end;
    try (repeat constructor; fail);
    try apply u_escape_ascii.
  - match goal with
    | H : _ && _ = true |- _ => apply andb_true_iff in H as [_ H];
                                apply N.leb_le in H
    end.
    constructor; [cbv beta; lia | constructor].
  - apply ascii_text_app; apply u_escape_ascii.
Qed.

Lemma dumps_str_ascii (s : pystr) : ascii_text (Codec.dumps_str s).
Proof.
  unfold Codec.dumps_str. constructor; [reflexivity|].
  apply ascii_text_app; [|repeat constructor].
  induction s as [|c s IH]; simpl; [constructor|].
  apply ascii_text_app; [apply escape_char_ascii | exact IH].
Qed.

(** The two shapes of the command text. *)
Lemma json_cmd_text (command params : pystr) :
  json_cmd command params =
  match params with
  | [] => [123] ++ Codec.dumps_str (lit "command") ++ [58]
              ++ Codec.dumps_str command ++ [125]
  | _ :: _ => [123] ++ Codec.dumps_str (lit "command") ++ [58]
                ++ Codec.dumps_str command ++ [44]
                ++ Codec.dumps_str (lit "parameter") ++ [58]
                ++ Codec.dumps_str params ++ [125]
  end.
Proof.
  unfold json_cmd. destruct params as [|p ps];
    cbn [Codec.dumps map fst snd Codec.join_comma flat_map List.app];
    rewrite ?app_nil_r, <- ?app_assoc; cbn [List.app]; reflexivity.
Qed.

Lemma json_cmd_ascii (command params : pystr) :
  ascii_text (json_cmd command params).
Proof.
  rewrite json_cmd_text.
  destruct params;
    repeat (apply ascii_text_app; [|]); try apply dumps_str_ascii;
    repeat constructor.
Qed.

Lemma byte_of_to_N (n : N) : n < 256 -> Byte.to_N (Utf8.byte_of n) = n.
Proof.
  intros H. unfold Utf8.byte_of.
  destruct (Byte.of_N n) as [b|] eqn:Hb.
  - now apply Byte.to_of_N.
  - apply Byte.of_N_None_iff in Hb. lia.
Qed.

Lemma utf8_encode_ascii (s : pystr) :
  ascii_text s -> Utf8.encode s = Some (map Utf8.byte_of s).
Proof.
  induction 1 as [|c s Hc _ IH]; simpl; [reflexivity|].
  unfold Utf8.encode_char. apply N.ltb_lt in Hc. now rewrite Hc, IH.
Qed.

Lemma utf8_decode_ascii (s : pystr) :
  ascii_text s -> Utf8.decode (map Utf8.byte_of s) = Some s.
Proof.
  induction 1 as [|c s Hc _ IH]; simpl; [reflexivity|].
  rewrite byte_of_to_N by lia. apply N.ltb_lt in Hc. now rewrite Hc, IH.
Qed.

Lemma wire_bytes_defined (command params : pystr) :
  Utf8.encode (json_cmd command params)
  = Some (map Utf8.byte_of (json_cmd command params)).
Proof. apply utf8_encode_ascii, json_cmd_ascii. Qed.

Lemma escape_char_plain (c : codepoint) :
  plain_char c -> Codec.escape_char c = [c].
Proof.
  intros (Hr & H34 & H92). unfold Codec.escape_char.
  repeat match goal with
         | |- context [?a =? ?b] =>
             destruct (N.eqb_spec a b); [lia|]
         end.
  replace ((32 <=? c) && (c <=? 126)) with true; [reflexivity|].
  symmetry. apply andb_true_iff. split; apply N.leb_le; lia.
Qed.

Lemma dumps_str_plain (s : pystr) :
  Forall plain_char s -> Codec.dumps_str s = 34 :: s ++ [34].
Proof.
  intros H. unfold Codec.dumps_str. do 2 f_equal.
  induction H as [|c s Hc _ IH]; simpl; [reflexivity|].
  now rewrite (escape_char_plain Hc), IH.
Qed.

(** ** Encoding a command *)

(** C10. With an empty parameter string [send_command] writes the same
    bytes as with no parameter at all: the object holds the [command] key
    only, [{"command":"<name>"}], and the two calls are indistinguishable. *)
Theorem empty_parameter_is_absent (command : pystr) :
  wire_bytes command (Some []) = wire_bytes command None /\
  wire_bytes command None
  = Some (map Utf8.byte_of
              ([123; 34] ++ lit "command" ++ [34; 58]
                 ++ Codec.dumps_str command ++ [125])) /\
  (forall w, send_command command (Some []) w = send_command command None w) /\
  (Forall plain_char command ->
   wire_bytes command (Some [])
   = Some (map Utf8.byte_of
               ([123; 34] ++ lit "command" ++ [34; 58; 34]
                  ++ command ++ [34; 125]))).
Proof.
  split; [reflexivity|]. split; [|split; [reflexivity|]].
  - unfold wire_bytes. rewrite wire_bytes_defined, json_cmd_text.
    reflexivity.
  - intros Hplain. unfold wire_bytes.
    rewrite wire_bytes_defined, json_cmd_text, (dumps_str_plain Hplain).
    do 2 f_equal. simpl. now rewrite <- app_assoc.
Qed.

Lemma empty_parameter_is_absent_witness :
  Forall plain_char (lit "version") /\
  wire_bytes (lit "version") (Some [])
  = Some (map Utf8.byte_of
              ([123; 34] ++ lit "command" ++ [34; 58; 34]
                 ++ lit "version" ++ [34; 125])).
Proof.
  assert (H : Forall plain_char (lit "version")).
  { repeat constructor; cbv; congruence. }
  split; [exact H|].
  exact (proj2 (proj2 (proj2 (empty_parameter_is_absent _))) H).
Defined.

Lemma io_bind_ret {A B} (a : A) (k : A -> IO B) (w : world) :
  io_bind (ret a) k w = k a w.
Proof. reflexivity. Qed.

Lemma io_bind_print {B} (text : pystr) (k : unit -> IO B) (w : world) :
  io_bind (print text) k w = k tt (emit (Print text) w).
Proof. reflexivity. Qed.

(** Sending a command and reporting on the reply makes one network call. *)
Lemma send_then_report_net_calls (command params success : pystr)
      (args : Namespace) (w : world) :
  net_calls (trace (snd (io_bind (send_command command (Some params))
                           (fun response => report response success args)
                           w)))
  = net_calls (trace w) ++ [(command, params)].
Proof.
  pose proof (@send_command_net_calls command params w) as Hsend.
  unfold io_bind.
  destruct (send_command command (Some params) w) as [[response|e] w1];
    cbn [snd] in *; rewrite ?report_net_calls; apply Hsend;
    rewrite wire_bytes_defined; discriminate.
Qed.

(** ** Fan speed, range mode *)

(** C5. In range mode (neither [--auto] nor [--speed], both bounds given),
    when 25 <= p1 <= p2 <= 100 the command sends [ascset] once, with the
    parameter string [0,fan-spd,<p1>..<p2>]; when p1 > p2, or a bound lies
    outside 25..100, it prints one error line and exits with status 1,
    and nothing is encoded or sent. *)
Theorem fan_range_params (args : Namespace) (p1 p2 : Z) (w : world) :
  auto args = false -> speed args = None ->
  min_speed args = Some p1 -> max_speed args = Some p2 ->
  ((25 <= p1 <= p2 /\ p2 <= 100)%Z ->
   net_calls (trace (snd (cmd_set_fan_speed args w)))
   = net_calls (trace w)
       ++ [(lit "ascset",
            lit "0,fan-spd," ++ str_of_int p1 ++ lit ".." ++ str_of_int p2)]) /\
  ((p1 > p2 \/ p1 < 25 \/ 100 < p1 \/ p2 < 25 \/ 100 < p2)%Z ->
   fst (cmd_set_fan_speed args w) = Raise (SystemExit 1) /\
   net_calls (trace (snd (cmd_set_fan_speed args w))) = net_calls (trace w) /\
   exists msg, trace (snd (cmd_set_fan_speed args w))
               = trace w ++ [Print msg]).
Proof.
  intros Hauto Hspeed Hmin Hmax.
  unfold cmd_set_fan_speed. rewrite Hauto, Hspeed, Hmin, Hmax. split.
  - intros Hr.
    replace ((25 <=? p1)%Z && (p1 <=? 100)%Z
             && ((25 <=? p2)%Z && (p2 <=? 100)%Z)) with true
      by (symmetry; rewrite !andb_true_iff, !Z.leb_le; lia).
    replace (p1 >? p2)%Z with false
      by (symmetry; rewrite Z.gtb_ltb; apply Z.ltb_ge; lia).
    cbn [negb]. rewrite io_bind_ret, io_bind_print. cbn [fst snd].
    rewrite send_then_report_net_calls.
    unfold emit; cbn [trace]. rewrite net_calls_app.
    cbn [net_calls]. now rewrite app_nil_r.
  - intros Hbad.
    destruct ((25 <=? p1)%Z && (p1 <=? 100)%Z
              && ((25 <=? p2)%Z && (p2 <=? 100)%Z)) eqn:Hrange.
    + rewrite !andb_true_iff, !Z.leb_le in Hrange.
      replace (p1 >? p2)%Z with true
        by (symmetry; rewrite Z.gtb_ltb; apply Z.ltb_lt; lia).
      cbn. rewrite net_calls_app. cbn. rewrite app_nil_r. eauto.
    + cbn. rewrite net_calls_app. cbn. rewrite app_nil_r. eauto.
Qed.


Lemma fan_range_params_witness :
  net_calls (trace (snd (cmd_set_fan_speed (range_args 30 100) silent_world)))
  = [(lit "ascset", lit "0,fan-spd,30..100")] /\
  fst (cmd_set_fan_speed (range_args 80 40) silent_world)
  = Raise (SystemExit 1).
Proof.
  split.
  - apply (proj1 (@fan_range_params (range_args 30 100) 30 100 silent_world
                    eq_refl eq_refl eq_refl eq_refl)).
    lia.
  - apply (proj2 (@fan_range_params (range_args 80 40) 80 40 silent_world
                    eq_refl eq_refl eq_refl eq_refl)).
    left; lia.
Defined.

(** ** Confirmation *)

Lemma confirm_declined (lower : pystr -> pystr) (args : Namespace)
      (prompt : pystr) (w : world) (answer : pystr) (rest : list pystr) :
  force args = false -> stdin w = answer :: rest -> declined lower answer ->
  confirm_unless_forced lower args prompt w
  = (Ok false,
     {| device := device w; stdin := rest;
        trace := (trace w ++ [Prompt prompt])
                   ++ [Print (lit "Operation cancelled")] |}).
Proof.
  intros Hforce Hin Hno. apply str_eqb_neq in Hno.
  unfold confirm_unless_forced. rewrite Hforce. cbn [negb].
  unfold io_bind at 1. unfold input. rewrite Hin, Hno. reflexivity.
Qed.

(** C6. Without [--force], an answer that does not lowercase to "yes"
    cancels the operation: [cmd_set_voltage] and [cmd_reboot] print
    "Operation cancelled" and return, and no command is sent.  ([cmd_reboot]
    asks only once the delay has passed its range check; with a delay out
    of range it exits earlier, still without a network call.) *)
Theorem declined_confirmation_cancels (lower : pystr -> pystr)
        (args : Namespace) (w : world) (answer : pystr) (rest : list pystr) :
  force args = false -> stdin w = answer :: rest -> declined lower answer ->
  (fst (cmd_set_voltage lower args w) = Ok tt /\
   net_calls (trace (snd (cmd_set_voltage lower args w)))
   = net_calls (trace w) /\
   exists shown,
     trace (snd (cmd_set_voltage lower args w))
     = trace w ++ shown ++ [Print (lit "Operation cancelled")]) /\
  net_calls (trace (snd (cmd_reboot lower args w))) = net_calls (trace w) /\
  ((0 <= delay args <= 300)%Z ->
   fst (cmd_reboot lower args w) = Ok tt /\
   exists shown,
     trace (snd (cmd_reboot lower args w))
     = trace w ++ shown ++ [Print (lit "Operation cancelled")]).
Proof.
  intros Hforce Hin Hno.
  assert (Hv : cmd_set_voltage lower args w
               = (Ok tt,
                  {| device := device w; stdin := rest;
                     trace := trace w
                       ++ [Print (10 :: lit "Setting voltage to "
                                     ++ str_of_int (voltage args)
                                     ++ lit "...");
                           Print (lit "WARNING: Setting incorrect voltage can damage your miner!")]
                       ++ [Prompt (lit "Are you sure you want to proceed? (yes/no): ")]
                       ++ [Print (lit "Operation cancelled")] |})).
  { unfold cmd_set_voltage. rewrite !io_bind_print. unfold io_bind.
    match goal with
    | |- context [confirm_unless_forced lower args ?p ?w0] =>
        rewrite (@confirm_declined lower args p w0 answer rest
                   Hforce Hin Hno)
    end.
    unfold emit; cbn [trace device stdin]. unfold ret.
    now rewrite <- !app_assoc. }
  assert (Hr : (0 <= delay args <= 300)%Z ->
               exists banner,
                 cmd_reboot lower args w
                 = (Ok tt,
                    {| device := device w; stdin := rest;
                       trace := trace w
                         ++ [Print banner]
                         ++ [Prompt (lit "Are you sure you want to reboot the miner? (yes/no): ")]
                         ++ [Print (lit "Operation cancelled")] |})).
  { intros Hd. unfold cmd_reboot.
    replace ((0 <=? delay args)%Z && (delay args <=? 300)%Z) with true
      by (symmetry; rewrite andb_true_iff, !Z.leb_le; lia).
    cbn [negb]. rewrite io_bind_ret.
    destruct (delay args >? 0)%Z; rewrite io_bind_print; unfold io_bind;
      match goal with
      | |- context [confirm_unless_forced lower args ?p ?w0] =>
          rewrite (@confirm_declined lower args p w0 answer rest
                     Hforce Hin Hno)
      end;
      unfold emit; cbn [trace device stdin]; unfold ret;
      eexists; rewrite <- !app_assoc; reflexivity. }
  split; [|split].
  - rewrite Hv. cbn [fst snd trace]. split; [reflexivity|]. split.
    + rewrite !net_calls_app. cbn. now rewrite !app_nil_r.
    + eexists. f_equal. apply app_assoc.
  - destruct (negb ((0 <=? delay args)%Z && (delay args <=? 300)%Z))
      eqn:Hd.
    + unfold cmd_reboot, io_bind, print, sys_exit, emit. rewrite Hd. cbn.
      rewrite net_calls_app. cbn. now rewrite app_nil_r.
    + apply negb_false_iff in Hd.
      rewrite andb_true_iff, !Z.leb_le in Hd.
      destruct (Hr Hd) as [banner ->]. cbn [snd trace].
      rewrite !net_calls_app. cbn. now rewrite !app_nil_r.
  - intros Hd. destruct (Hr Hd) as [banner ->]. cbn [fst snd trace].
    split; [reflexivity|]. eexists. f_equal. apply app_assoc.
Qed.

Lemma declined_confirmation_cancels_witness :
  force voltage_args = false /\
  declined ascii_lower (lit "No") /\
  fst (cmd_set_voltage ascii_lower voltage_args (answering (lit "No")))
  = Ok tt /\
  net_calls
    (trace (snd (cmd_set_voltage ascii_lower voltage_args
                   (answering (lit "No"))))) = [] /\
  net_calls
    (trace (snd (cmd_reboot ascii_lower voltage_args
                   (answering (lit "No"))))) = [].
Proof.
  assert (Hno : declined ascii_lower (lit "No")).
  { intros H; vm_compute in H; discriminate. }
  destruct (@declined_confirmation_cancels ascii_lower voltage_args
              (answering (lit "No")) (lit "No") [] eq_refl eq_refl Hno)
    as [[H1 [H2 _]] [H3 _]].
  exact (conj eq_refl (conj Hno (conj H1 (conj H2 H3)))).
Defined.

(** ** The codec round trip *)

Section Escapes.
Import Codec.

Lemma hex_value_digit (d : N) : d < 16 -> hex_value (hex_digit d) = Some d.
Proof.
  intros H. unfold hex_digit, hex_value.
  destruct (N.ltb_spec d 10).
  - replace ((48 <=? 48 + d) && (48 + d <=? 57)) with true
      by (symmetry; rewrite andb_true_iff, !N.leb_le; lia).
    f_equal; lia.
  - replace ((48 <=? 87 + d) && (87 + d <=? 57)) with false
      by (symmetry; rewrite andb_false_iff, !N.leb_gt; lia).
    replace ((97 <=? 87 + d) && (87 + d <=? 102)) with true
      by (symmetry; rewrite andb_true_iff, !N.leb_le; lia).
    f_equal; lia.
Qed.

Lemma hex_arith (n : N) :
  n < 65536 ->
  (((n / 4096 mod 16) * 16 + n / 256 mod 16) * 16 + n / 16 mod 16) * 16
  + n mod 16 = n.
Proof.
  intros H.
  change 4096 with (16 * 16 * 16). change 256 with (16 * 16).
  rewrite <- !N.Div0.div_div.
  pose proof (N.Div0.div_mod n 16).
  pose proof (N.Div0.div_mod (n / 16) 16).
  pose proof (N.Div0.div_mod (n / 16 / 16) 16).
  pose proof (N.Div0.div_mod (n / 16 / 16 / 16) 16).
  pose proof (N.mod_lt n 16 ltac:(discriminate)).
  pose proof (N.mod_lt (n / 16) 16 ltac:(discriminate)).
  pose proof (N.mod_lt (n / 16 / 16) 16 ltac:(discriminate)).
  pose proof (N.mod_lt (n / 16 / 16 / 16) 16 ltac:(discriminate)).
  generalize dependent (n mod 16).
  generalize dependent (n / 16 mod 16).
  generalize dependent (n / 16 / 16 mod 16).
  generalize dependent (n / 16 / 16 / 16 mod 16).
  generalize dependent (n / 16 / 16 / 16 / 16).
  generalize dependent (n / 16 / 16 / 16).
  generalize dependent (n / 16 / 16).
  generalize dependent (n / 16). intros. lia.
Qed.

(** Four hexadecimal digits read back as the number they write. *)
Lemma decode_hex4_hex4 (n : N) :
  n < 65536 ->
  decode_hex4 (hex_digit (n / 4096 mod 16)) (hex_digit (n / 256 mod 16))
              (hex_digit (n / 16 mod 16)) (hex_digit (n mod 16)) = Some n.
Proof.
  intros H. unfold decode_hex4.
  rewrite !hex_value_digit by (apply N.mod_lt; discriminate).
  now rewrite hex_arith.
Qed.

Lemma lor_disjoint (k b : N) :
  b < 1024 -> N.lor (k * 1024) b = k * 1024 + b.
Proof.
  intros Hb.
  assert (Hland : N.land (k * 1024) b = 0).
  { apply N.bits_inj; intros i. rewrite N.land_spec, N.bits_0.
    change 1024 with (2 ^ 10) in *.
    destruct (N.lt_ge_cases i 10) as [Hi|Hi].
    - now rewrite N.mul_pow2_bits_low.
    - rewrite (N.testbit_eqb b), N.div_small, andb_false_r; [reflexivity|].
      apply N.lt_le_trans with (2 ^ 10); [exact Hb|].
      apply N.pow_le_mono_r; [discriminate | exact Hi]. }
  rewrite (N.add_nocarry_lxor _ _ Hland). symmetry. now apply N.lxor_lor.
Qed.

(** The surrogate pair of a character beyond the basic plane. *)
Lemma surrogate_pair_spec (c : codepoint) :
  65536 <= c < 1114112 ->
  let n := c - 65536 in
  let s1 := N.lor 55296 (N.land (N.shiftr n 10) 1023) in
  let s2 := N.lor 56320 (N.land n 1023) in
  s1 < 65536 /\ s2 < 65536 /\
  is_high_surrogate s1 = true /\ is_low_surrogate s2 = true /\
  join_surrogates s1 s2 = c.
Proof.
  intros Hc n s1 s2.
  assert (Hn : n < 1048576) by (unfold n; lia).
  assert (Ha : N.land (N.shiftr n 10) 1023 = n / 1024).
  { change 1023 with (N.ones 10).
    rewrite N.land_ones, N.shiftr_div_pow2. change (2 ^ 10) with 1024.
    apply N.mod_small. apply N.Div0.div_lt_upper_bound. lia. }
  assert (Hb : N.land n 1023 = n mod 1024).
  { change 1023 with (N.ones 10). now rewrite N.land_ones. }
  assert (Hlt_a : n / 1024 < 1024)
    by (apply N.Div0.div_lt_upper_bound; lia).
  assert (Hlt_b : n mod 1024 < 1024) by (apply N.mod_lt; discriminate).
  assert (Hs1 : s1 = 55296 + n / 1024).
  { unfold s1. rewrite Ha. change 55296 with (54 * 1024).
    now rewrite lor_disjoint. }
  assert (Hs2 : s2 = 56320 + n mod 1024).
  { unfold s2. rewrite Hb. change 56320 with (55 * 1024).
    now rewrite lor_disjoint. }
  repeat split.
  - lia.
  - lia.
  - unfold is_high_surrogate. rewrite andb_true_iff, !N.leb_le. lia.
  - unfold is_low_surrogate. rewrite andb_true_iff, !N.leb_le. lia.
  - unfold join_surrogates. rewrite Hs1, Hs2.
    replace (55296 + n / 1024 - 55296) with (n / 1024) by lia.
    replace (56320 + n mod 1024 - 56320) with (n mod 1024) by lia.
    rewrite N.shiftl_mul_pow2. change (2 ^ 10) with 1024.
    rewrite lor_disjoint by exact Hlt_b.
    pose proof (N.Div0.div_mod n 1024). unfold n in *. lia.
Qed.

End Escapes.

Section Scanstring.
Import Codec.

(** What [scanstring] does at a [\uXXXX] escape. *)
Lemma scanstring_u_escape (n : N) (t2 : pystr) :
  n < 65536 ->
  scanstring (u_escape n ++ t2) =
  match t2 with
  | b :: u :: g1 :: g2 :: g3 :: g4 :: t3 =>
      if is_high_surrogate n && (b =? 92) && (u =? 117) then
        match decode_hex4 g1 g2 g3 g4 with
        | None => None
        | Some uni2 =>
            if is_low_surrogate uni2
            then cons_char (join_surrogates n uni2) (scanstring t3)
            else cons_char n (scanstring t2)
        end
      else cons_char n (scanstring t2)
  | _ => cons_char n (scanstring t2)
  end.
Proof.
  intros Hn. unfold u_escape, hex4. cbn [List.app scanstring].
  change (92 =? 34) with false. change (92 =? 92) with true.
  change (117 =? 117) with true. cbv iota.
  rewrite (decode_hex4_hex4 Hn). reflexivity.
Qed.

Lemma scanstring_u_single (n : N) (t2 : pystr) :
  n < 65536 -> (is_high_surrogate n = true -> follows_ok t2) ->
  scanstring (u_escape n ++ t2) = cons_char n (scanstring t2).
Proof.
  intros Hn Hok. rewrite (scanstring_u_escape _ Hn).
  destruct t2 as [|b [|u [|g1 [|g2 [|g3 [|g4 t3]]]]]]; try reflexivity.
  destruct (is_high_surrogate n) eqn:Hh; [|reflexivity].
  destruct (N.eqb_spec b 92) as [->|]; [|reflexivity].
  destruct (N.eqb_spec u 117) as [->|]; [|reflexivity].
  cbn [andb].
  destruct (Hok eq_refl _ _ _ _ _ eq_refl) as (y & -> & ->).
  reflexivity.
Qed.

Lemma scanstring_u_pair (s1 s2 : N) (t3 : pystr) :
  s1 < 65536 -> s2 < 65536 ->
  is_high_surrogate s1 = true -> is_low_surrogate s2 = true ->
  scanstring (u_escape s1 ++ u_escape s2 ++ t3)
  = cons_char (join_surrogates s1 s2) (scanstring t3).
Proof.
  intros H1 H2 Hh Hl. rewrite (scanstring_u_escape _ H1).
  unfold u_escape at 1, hex4 at 1. cbn [List.app].
  rewrite Hh. change (92 =? 92) with true. change (117 =? 117) with true.
  cbn [andb]. now rewrite (decode_hex4_hex4 H2), Hl.
Qed.

Lemma follows_ok_u_escape (y : N) (more : pystr) :
  y < 65536 -> is_low_surrogate y = false ->
  follows_ok (u_escape y ++ more).
Proof.
  intros Hy Hlow g1 g2 g3 g4 t3 H.
  unfold u_escape, hex4 in H. cbn [List.app] in H.
  injection H as <- <- <- <- _.
  exists y. split; [now apply decode_hex4_hex4 | exact Hlow].
Qed.

Lemma follows_ok_head (b : codepoint) (more : pystr) :
  b <> 92 -> follows_ok (b :: more).
Proof. intros Hb g1 g2 g3 g4 t3 [= ? _]. contradiction. Qed.

Lemma follows_ok_short (x : codepoint) (more : pystr) :
  x <> 117 -> follows_ok (92 :: x :: more).
Proof. intros Hx g1 g2 g3 g4 t3 [= ? _]. contradiction. Qed.

Lemma high_not_low (y : N) :
  is_high_surrogate y = true -> is_low_surrogate y = false.
Proof.
  unfold is_high_surrogate, is_low_surrogate.
  rewrite andb_true_iff, andb_false_iff, !N.leb_le, !N.leb_gt. lia.
Qed.

(** The escape of a character that is not a low surrogate does not read
    as the second half of a pair. *)
Lemma follows_ok_escape_char (d : codepoint) (more : pystr) :
  d < 1114112 -> is_low_surrogate d = false ->
  follows_ok (escape_char d ++ more).
Proof.
  intros Hd Hlow. unfold escape_char.
  repeat match goal with
         | |- follows_ok ((if ?a =? ?b then _ else _) ++ _) =>
             destruct (N.eqb_spec a b);
             [apply follows_ok_short; discriminate|]
         end.
  destruct ((32 <=? d) && (d <=? 126)) eqn:Hp.
  - apply follows_ok_head. assumption.
  - destruct (N.ltb_spec d 65536) as [Hbmp|Hbig].
    + now apply follows_ok_u_escape.
    + destruct (@surrogate_pair_spec d ltac:(lia))
        as (H1 & _ & Hh & _).
      rewrite <- app_assoc. apply follows_ok_u_escape; [exact H1|].
      now apply high_not_low.
Qed.

(** [scanstring] reads the escape of one character back as that
    character. *)
Lemma scanstring_escape_char (c : codepoint) (more : pystr) :
  c < 1114112 -> (is_high_surrogate c = true -> follows_ok more) ->
  scanstring (escape_char c ++ more) = cons_char c (scanstring more).
Proof.
  intros Hc Hok. unfold escape_char.
  repeat match goal with
         | |- scanstring ((if ?a =? ?b then _ else _) ++ _) = _ =>
             destruct (N.eqb_spec a b) as [->|]; [reflexivity|]
         end.
  destruct ((32 <=? c) && (c <=? 126)) eqn:Hp.
  - apply andb_true_iff in Hp as [Hlo _]. apply N.leb_le in Hlo.
    cbn [List.app scanstring].
    destruct (N.eqb_spec c 34); [contradiction|].
    destruct (N.eqb_spec c 92); [contradiction|].
    destruct (N.leb_spec c 31); [lia | reflexivity].
  - destruct (N.ltb_spec c 65536) as [Hbmp|Hbig].
    + now apply scanstring_u_single.
    + destruct (@surrogate_pair_spec c ltac:(lia))
        as (H1 & H2 & Hh & Hl & Hjoin).
      rewrite <- app_assoc, scanstring_u_pair by assumption.
      now rewrite Hjoin.
Qed.

(** [scanstring] inverts the escaping of [json.dumps]. *)
Lemma scanstring_escape (s rest : pystr) :
  valid_str s -> no_surrogate_pair s ->
  scanstring (flat_map escape_char s ++ 34 :: rest) = Some (s, rest).
Proof.
  intros Hv. induction Hv as [|c s Hc Hv IH]; intros Hns.
  - reflexivity.
  - cbn [flat_map]. rewrite <- app_assoc.
    destruct Hns as [Hpair Hns].
    rewrite scanstring_escape_char; [now rewrite (IH Hns)|exact Hc|].
    intros Hh. destruct Hv as [|d s' Hd Hv'].
    + apply follows_ok_head. discriminate.
    + cbn [flat_map]. rewrite <- app_assoc.
      apply follows_ok_escape_char; [exact Hd|].
      rewrite Hh in Hpair. exact Hpair.
Qed.

End Scanstring.

Section Loads.
Import Codec.

Lemma skip_ws_head (c : codepoint) (t : pystr) :
  is_json_ws c = false -> skip_ws (c :: t) = c :: t.
Proof. intros H. cbn [skip_ws]. now rewrite H. Qed.

Lemma skip_ws_dumps_str (s rest : pystr) :
  skip_ws (dumps_str s ++ rest) = dumps_str s ++ rest.
Proof. reflexivity. Qed.

(** A string value is read back by [scan_once]. *)
Lemma scan_once_string (f : nat) (s rest : pystr) :
  valid_str s -> no_surrogate_pair s ->
  scan_once (S f) (dumps_str s ++ rest) = Some (JStr s, rest).
Proof.
  intros Hv Hns. unfold dumps_str. cbn [List.app scan_once].
  change (34 =? 34) with true. cbv iota.
  rewrite <- app_assoc. cbn [List.app].
  now rewrite scanstring_escape.
Qed.

(** The last member of an object: a key, a colon, a string value and the
    closing brace. *)
Lemma scan_members_last (f : nat) (pairs : list (pystr * json))
      (key value rest : pystr) :
  valid_str key -> no_surrogate_pair key ->
  valid_str value -> no_surrogate_pair value ->
  scan_members (S (S f)) pairs
    (flat_map escape_char key ++ 34 :: 58 :: dumps_str value ++ 125 :: rest)
  = Some (JObj (Dict.set key (JStr value) pairs), rest).
Proof.
  intros Hk1 Hk2 Hv1 Hv2. cbn [scan_members].
  rewrite scanstring_escape by assumption.
  rewrite skip_ws_head by reflexivity.
  change (58 =? 58) with true. cbv iota.
  rewrite skip_ws_dumps_str.
  rewrite scan_once_string by assumption.
  rewrite skip_ws_head by reflexivity.
  change (125 =? 125) with true. cbv iota. reflexivity.
Qed.

(** A member followed by a comma and the opening quote of the next key. *)
Lemma scan_members_next (f : nat) (pairs : list (pystr * json))
      (key value more : pystr) :
  valid_str key -> no_surrogate_pair key ->
  valid_str value -> no_surrogate_pair value ->
  scan_members (S (S f)) pairs
    (flat_map escape_char key ++ 34 :: 58 :: dumps_str value
       ++ 44 :: 34 :: more)
  = scan_members (S f) (Dict.set key (JStr value) pairs) more.
Proof.
  intros Hk1 Hk2 Hv1 Hv2. cbn [scan_members].
  rewrite scanstring_escape by assumption.
  rewrite skip_ws_head by reflexivity.
  change (58 =? 58) with true. cbv iota.
  rewrite skip_ws_dumps_str.
  rewrite scan_once_string by assumption.
  rewrite skip_ws_head by reflexivity.
  change (44 =? 125) with false. change (44 =? 44) with true. cbv iota.
  rewrite skip_ws_head by reflexivity.
  change (34 =? 34) with true. cbv iota. reflexivity.
Qed.

End Loads.

Section CommandText.
Import Codec.

Lemma dumps_str_app (s z : pystr) :
  dumps_str s ++ z = 34 :: flat_map escape_char s ++ 34 :: z.
Proof.
  unfold dumps_str. cbn [List.app]. now rewrite <- app_assoc.
Qed.

(** An object that opens with a key. *)
Lemma scan_once_object (f : nat) (t : pystr) :
  scan_once (S f) (123 :: 34 :: t) = scan_members f [] t.
Proof. destruct f; reflexivity. Qed.

Lemma valid_lit_command : valid_str (lit "command").
Proof. repeat constructor. Qed.

Lemma valid_lit_parameter : valid_str (lit "parameter").
Proof. repeat constructor. Qed.

(** [json.loads] reads the text of a command with a parameter back as
    the two-key object it was written from. *)
Lemma loads_json_cmd (command params : pystr) :
  valid_str command -> no_surrogate_pair command ->
  valid_str params -> no_surrogate_pair params -> params <> [] ->
  loads (json_cmd command params)
  = Some (JObj [(lit "command", JStr command);
                (lit "parameter", JStr params)]).
Proof.
  intros Hc1 Hc2 Hp1 Hp2 Hne. unfold loads.
  rewrite json_cmd_text. destruct params as [|p ps]; [congruence|].
  set (value := p :: ps) in *.
  rewrite (dumps_str_app (lit "command")).
  rewrite (dumps_str_app (lit "parameter")).
  cbn [List.app]. rewrite skip_ws_head by reflexivity.
  cbn [List.length]. rewrite length_app. cbn [List.length].
  rewrite Nat.add_succ_r, scan_once_object.
  rewrite scan_members_next;
    [|apply valid_lit_command|repeat split|assumption|assumption].
  rewrite length_app. cbn [List.length]. rewrite Nat.add_succ_r.
  rewrite scan_members_last;
    [|apply valid_lit_parameter|repeat split|assumption|assumption].
  reflexivity.
Qed.

(** Without a parameter the object has the [command] key only. *)
Lemma loads_json_cmd_bare (command : pystr) :
  valid_str command -> no_surrogate_pair command ->
  loads (json_cmd command [])
  = Some (JObj [(lit "command", JStr command)]).
Proof.
  intros Hc1 Hc2. unfold loads. rewrite json_cmd_text.
  rewrite (dumps_str_app (lit "command")).
  cbn [List.app]. rewrite skip_ws_head by reflexivity.
  cbn [List.length]. rewrite length_app. cbn [List.length].
  rewrite Nat.add_succ_r, scan_once_object.
  rewrite length_app. cbn [List.length]. rewrite Nat.add_succ_r.
  rewrite scan_members_last;
    [|apply valid_lit_command|repeat split|assumption|assumption].
  reflexivity.
Qed.

End CommandText.

Lemma lstrip_head (drop : codepoint -> bool) (c : codepoint) (t : pystr) :
  drop c = false -> lstrip drop (c :: t) = c :: t.
Proof. intros H. cbn [lstrip]. now rewrite H. Qed.

Lemma rstrip_last (drop : codepoint -> bool) (s : pystr) (x : codepoint) :
  drop x = false -> rstrip drop (s ++ [x]) = s ++ [x].
Proof.
  intros H. unfold rstrip. rewrite rev_app_distr. cbn [List.rev List.app].
  rewrite lstrip_head by exact H.
  change (x :: List.rev s) with ([x] ++ List.rev s).
  now rewrite rev_app_distr, rev_involutive.
Qed.

(** The command text opens and closes with a brace: there is no padding
    to strip. *)
Lemma strip_padding_json_cmd (command params : pystr) :
  strip_padding (json_cmd command params) = json_cmd command params.
Proof.
  assert (H : exists m, json_cmd command params = 123 :: m ++ [125]).
  { rewrite json_cmd_text. destruct params.
    - eexists. rewrite !app_assoc. reflexivity.
    - eexists. rewrite !app_assoc. reflexivity. }
  destruct H as [m ->]. unfold strip_padding.
  change (123 :: m ++ [125]) with ((123 :: m) ++ [125]).
  rewrite rstrip_last by reflexivity.
  cbn [List.app]. rewrite lstrip_head by reflexivity.
  change (123 :: m ++ [125]) with ((123 :: m) ++ [125]).
  now rewrite rstrip_last.
Qed.

(** What [send_command] writes is parsed back by its own reply parser. *)
Lemma parse_response_wire (command params : pystr) (document : json) :
  Codec.loads (json_cmd command params) = Some document ->
  parse_response (map Utf8.byte_of (json_cmd command params)) = Ok document.
Proof.
  intros H. unfold parse_response.
  rewrite utf8_decode_ascii by apply json_cmd_ascii.
  now rewrite strip_padding_json_cmd, H.
Qed.

(** C3, as stated, fails.  With the empty parameter string the
    [parameter] key is not written, so nothing is read back under it; and a
    parameter holding a high surrogate followed by a low surrogate is read
    back as the single character the pair encodes. *)
Lemma round_trip_claim_counterexample :
  ~ round_trip (lit "version") [] /\
  ~ round_trip (lit "ascset") [55357; 56832] /\
  parse_response (map Utf8.byte_of (json_cmd (lit "ascset") [55357; 56832]))
  = Ok (JObj [(lit "command", JStr (lit "ascset"));
              (lit "parameter", JStr [128512])]).
Proof.
  split; [|split].
  - intros (payload & document & Hw & Hp & _ & Hq).
    vm_compute in Hw. injection Hw as <-.
    vm_compute in Hp. injection Hp as <-.
    vm_compute in Hq. discriminate.
  - intros (payload & document & Hw & Hp & _ & Hq).
    vm_compute in Hw. injection Hw as <-.
    vm_compute in Hp. injection Hp as <-.
    vm_compute in Hq. discriminate.
  - vm_compute. reflexivity.
Qed.

(** C3, amended.  For every command name and every non-empty parameter
    string, both free of a high surrogate immediately followed by a low
    surrogate, the compact encoding (key [command], then [parameter])
    decoded through the reply parser gives back the command name and the
    parameter string exactly. *)
Theorem command_round_trip (command params : pystr) :
  valid_str command -> no_surrogate_pair command ->
  valid_str params -> no_surrogate_pair params -> params <> [] ->
  round_trip command params /\
  wire_bytes command (Some params)
  = Some (map Utf8.byte_of
              ([123] ++ Codec.dumps_str (lit "command") ++ [58]
                 ++ Codec.dumps_str command ++ [44]
                 ++ Codec.dumps_str (lit "parameter") ++ [58]
                 ++ Codec.dumps_str params ++ [125])).
Proof.
  intros Hc1 Hc2 Hp1 Hp2 Hne. split.
  - exists (map Utf8.byte_of (json_cmd command params)).
    exists (JObj [(lit "command", JStr command);
                  (lit "parameter", JStr params)]).
    split; [apply wire_bytes_defined|].
    split; [|split; reflexivity].
    apply parse_response_wire. now apply loads_json_cmd.
  - unfold wire_bytes. rewrite wire_bytes_defined, json_cmd_text.
    destruct params; [congruence | reflexivity].
Qed.

Lemma command_round_trip_witness :
  round_trip (lit "ascset") (lit "0,fan-spd,25..100").
Proof.
  refine (proj1 (@command_round_trip (lit "ascset")
                   (lit "0,fan-spd,25..100") _ _ _ _ _)).
  - repeat constructor.
  - vm_compute. tauto.
  - repeat constructor.
  - vm_compute. tauto.
  - discriminate.
Defined.

(** ** Difficulty formatting *)

Section Difficulty.
Import Float.
Local Open Scope Z_scope.

(** The thresholds are exact in binary64; their exponents increase. *)
Lemma threshold_values :
  of_Z (10 ^ 3) = S754_finite false 8796093022208000 (-43) /\
  of_Z (10 ^ 6) = S754_finite false 8589934592000000 (-33) /\
  of_Z (10 ^ 9) = S754_finite false 8388608000000000 (-23) /\
  of_Z (10 ^ 12) = S754_finite false 8192000000000000 (-13) /\
  of_Z (10 ^ 15) = S754_finite false 8000000000000000 (-3).
Proof. repeat split; vm_compute; reflexivity. Qed.

Lemma SFcompare_antisym (a b : float) :
  SFcompare b a = option_map CompOpp (SFcompare a b).
Proof.
  destruct a as [[|]|[|]| |[|] m1 e1], b as [[|]|[|]| |[|] m2 e2];
    cbn; try reflexivity;
    rewrite (Z.compare_antisym e1 e2);
    destruct (Z.compare_spec e1 e2); cbn; try reflexivity;
    rewrite ?CompOpp_involutive, Pos.compare_cont_antisym; reflexivity.
Qed.

(** Below a value is not at or above it. *)
Lemma ltb_not_geb (d t : float) : ltb d t = true -> geb d t = false.
Proof.
  unfold ltb, geb, SFltb, SFleb. rewrite (SFcompare_antisym d t).
  destruct (SFcompare d t) as [[| |]|]; cbn; congruence.
Qed.

(** Below a positive float is below every positive float of a larger
    exponent. *)
Lemma ltb_not_geb_higher (d : float) (m1 m2 : positive) (e1 e2 : Z) :
  e1 < e2 ->
  ltb d (S754_finite false m1 e1) = true ->
  geb d (S754_finite false m2 e2) = false.
Proof.
  intros He. unfold ltb, geb, SFltb, SFleb.
  destruct d as [[|]|[|]| |[|] m e]; cbn [SFcompare];
    try discriminate; try reflexivity.
  destruct (Z.compare_spec e e1); try discriminate;
    destruct (Z.compare_spec e2 e); try lia; reflexivity.
Qed.

(** A float that is not NaN is at or above a positive finite float, or
    below it. *)
Lemma geb_or_ltb (d : float) (m : positive) (e : Z) :
  d <> S754_nan ->
  geb d (S754_finite false m e) = true \/
  ltb d (S754_finite false m e) = true.
Proof.
  intros Hn. unfold geb, ltb, SFleb, SFltb.
  rewrite (SFcompare_antisym d (S754_finite false m e)).
  destruct d as [[|]|[|]| |[|] m' e']; cbn [SFcompare option_map CompOpp];
    try congruence; auto.
  destruct (e' ?= e)%Z; cbn; auto.
  destruct (Pos.compare_cont Eq m' m); cbn; auto.
Qed.

(** [format_2f] writes two decimals for every zero or finite value. *)
Lemma format_2f_two_decimals (x : float) :
  (match x with
   | S754_zero _ | S754_finite _ _ _ => True
   | _ => False
   end) ->
  two_decimals (format_2f x).
Proof.
  destruct x as [s|s| |s m e]; try contradiction; intros _.
  - exists (sign_text s ++ lit "0"), 48%N, 48%N.
    split; [now rewrite <- app_assoc | split; split; discriminate].
  - cbn [format_2f].
    set (h := hundredths m e).
    pose proof (Z.mod_pos_bound h 100 eq_refl) as Hh.
    exists (sign_text s ++ str_of_int (h / 100)),
      (48 + Z.to_N ((h mod 100) / 10))%N,
      (48 + Z.to_N ((h mod 100) mod 10))%N.
    split.
    + rewrite <- !app_assoc. reflexivity.
    + pose proof (Z.mod_pos_bound (h mod 100) 10 eq_refl).
      assert (0 <= h mod 100 / 10 < 10).
      { split; [apply Z.div_pos; lia |
                apply Z.div_lt_upper_bound; lia]. }
      split; split; lia.
Qed.

End Difficulty.

(** C8. [format_difficulty] scales by the largest threshold the value
    reaches: at or above 10^15 it divides by 10^15 and appends " P"; from
    10^12 up to 10^15, " T"; from 10^9, " G"; from 10^6, " M"; from 10^3,
    " K"; below 10^3 it renders the value itself.  The rendering is
    [.2f], which writes two decimals.  Every non-negative value falls in
    one of the six ranges.  2,500,000,000 gives "2.50 G", 999 gives
    "999.00" and 1.5e15 gives "1.50 P". *)
Theorem format_difficulty_scales (d : Float.float) :
  (Float.geb d (Float.of_Z (10 ^ 15)) = true ->
   format_difficulty d
   = Float.format_2f (Float.div d (Float.of_Z (10 ^ 15))) ++ lit " P") /\
  (Float.geb d (Float.of_Z (10 ^ 12)) = true ->
   Float.ltb d (Float.of_Z (10 ^ 15)) = true ->
   format_difficulty d
   = Float.format_2f (Float.div d (Float.of_Z (10 ^ 12))) ++ lit " T") /\
  (Float.geb d (Float.of_Z (10 ^ 9)) = true ->
   Float.ltb d (Float.of_Z (10 ^ 12)) = true ->
   format_difficulty d
   = Float.format_2f (Float.div d (Float.of_Z (10 ^ 9))) ++ lit " G") /\
  (Float.geb d (Float.of_Z (10 ^ 6)) = true ->
   Float.ltb d (Float.of_Z (10 ^ 9)) = true ->
   format_difficulty d
   = Float.format_2f (Float.div d (Float.of_Z (10 ^ 6))) ++ lit " M") /\
  (Float.geb d (Float.of_Z (10 ^ 3)) = true ->
   Float.ltb d (Float.of_Z (10 ^ 6)) = true ->
   format_difficulty d
   = Float.format_2f (Float.div d (Float.of_Z (10 ^ 3))) ++ lit " K") /\
  (Float.ltb d (Float.of_Z (10 ^ 3)) = true ->
   format_difficulty d = Float.format_2f d /\
   (finite_nonneg d -> two_decimals (format_difficulty d))) /\
  (finite_nonneg d ->
   forall k, In k [3; 6; 9; 12; 15]%Z ->
     Float.geb d (Float.of_Z (10 ^ k)) = true \/
     Float.ltb d (Float.of_Z (10 ^ k)) = true) /\
  format_difficulty (Float.of_Z 2500000000) = lit "2.50 G" /\
  format_difficulty (Float.of_Z 999) = lit "999.00" /\
  format_difficulty (Float.of_Z (15 * 10 ^ 14)) = lit "1.50 P".
Proof.
  destruct threshold_values as (E3 & E6 & E9 & E12 & E15).
  assert (Hhigher : forall k m1 e1 m2 e2,
             Float.of_Z k = S754_finite false m2 e2 ->
             Float.ltb d (S754_finite false m1 e1) = true ->
             (e1 < e2)%Z ->
             Float.geb d (Float.of_Z k) = false).
  { intros k m1 e1 m2 e2 -> Hlt He.
    eapply ltb_not_geb_higher; eassumption. }
  unfold format_difficulty.
  split; [intros H; now rewrite H|].
  split.
  { intros Hge Hlt. rewrite (ltb_not_geb _ _ Hlt), Hge. reflexivity. }
  split.
  { intros Hge Hlt. rewrite (ltb_not_geb _ _ Hlt), Hge.
    rewrite E12 in Hlt.
    rewrite (Hhigher _ _ _ _ _ E15 Hlt) by lia.
    reflexivity. }
  split.
  { intros Hge Hlt. rewrite (ltb_not_geb _ _ Hlt), Hge.
    rewrite E9 in Hlt.
    rewrite (Hhigher _ _ _ _ _ E15 Hlt), (Hhigher _ _ _ _ _ E12 Hlt) by lia.
    reflexivity. }
  split.
  { intros Hge Hlt. rewrite (ltb_not_geb _ _ Hlt), Hge.
    rewrite E6 in Hlt.
    rewrite (Hhigher _ _ _ _ _ E15 Hlt), (Hhigher _ _ _ _ _ E12 Hlt),
      (Hhigher _ _ _ _ _ E9 Hlt) by lia.
    reflexivity. }
  split.
  { intros Hlt.
    assert (Hfmt :
      (if Float.geb d (Float.of_Z (10 ^ 15))
       then Float.format_2f (Float.div d (Float.of_Z (10 ^ 15))) ++ lit " P"
       else if Float.geb d (Float.of_Z (10 ^ 12))
       then Float.format_2f (Float.div d (Float.of_Z (10 ^ 12))) ++ lit " T"
       else if Float.geb d (Float.of_Z (10 ^ 9))
       then Float.format_2f (Float.div d (Float.of_Z (10 ^ 9))) ++ lit " G"
       else if Float.geb d (Float.of_Z (10 ^ 6))
       then Float.format_2f (Float.div d (Float.of_Z (10 ^ 6))) ++ lit " M"
       else if Float.geb d (Float.of_Z (10 ^ 3))
       then Float.format_2f (Float.div d (Float.of_Z (10 ^ 3))) ++ lit " K"
       else Float.format_2f d) = Float.format_2f d).
    { rewrite (ltb_not_geb _ _ Hlt).
      rewrite E3 in Hlt.
      rewrite (Hhigher _ _ _ _ _ E15 Hlt), (Hhigher _ _ _ _ _ E12 Hlt),
        (Hhigher _ _ _ _ _ E9 Hlt), (Hhigher _ _ _ _ _ E6 Hlt) by lia.
      reflexivity. }
    split; [exact Hfmt|].
    intros Hd. refine (eq_ind_r two_decimals _ Hfmt).
    apply format_2f_two_decimals.
    destruct d as [s|s| |[|] m e]; try contradiction; exact I. }
  split.
  { intros Hd k Hk.
    assert (Hn : d <> S754_nan) by (destruct d; [discriminate | contradiction
                                                 | contradiction | discriminate]).
    cbn [In] in Hk.
    destruct Hk as [<-|[<-|[<-|[<-|[<-|[]]]]]];
      [rewrite E3|rewrite E6|rewrite E9|rewrite E12|rewrite E15];
      now apply geb_or_ltb. }
  repeat split; vm_compute; reflexivity.
Qed.

Lemma format_difficulty_scales_witness :
  Float.geb (Float.of_Z 2500000) (Float.of_Z (10 ^ 6)) = true /\
  Float.ltb (Float.of_Z 2500000) (Float.of_Z (10 ^ 9)) = true /\
  format_difficulty (Float.of_Z 2500000)
  = Float.format_2f (Float.div (Float.of_Z 2500000) (Float.of_Z (10 ^ 6)))
      ++ lit " M".
Proof.
  assert (Hge : Float.geb (Float.of_Z 2500000) (Float.of_Z (10 ^ 6)) = true)
    by (vm_compute; reflexivity).
  assert (Hlt : Float.ltb (Float.of_Z 2500000) (Float.of_Z (10 ^ 9)) = true)
    by (vm_compute; reflexivity).
  split; [exact Hge|]. split; [exact Hlt|].
  exact (proj1 (proj2 (proj2 (proj2
           (format_difficulty_scales (Float.of_Z 2500000))))) Hge Hlt).
Defined.


(** * Further properties of the code *)

(** ** Uptime *)

(** X1. [format_uptime] writes days, hours, minutes and seconds that
    recompose to the input, with hours below 24 and minutes and seconds
    below 60, for every integer; nothing is rounded or carried. *)
Theorem format_uptime_parts (seconds : Z) :
  exists days hours minutes secs : Z,
    format_uptime seconds
    = str_of_int days ++ lit "d " ++ str_of_int hours ++ lit "h "
        ++ str_of_int minutes ++ lit "m " ++ str_of_int secs ++ lit "s" /\
    (0 <= hours < 24)%Z /\ (0 <= minutes < 60)%Z /\ (0 <= secs < 60)%Z /\
    (seconds = days * 86400 + hours * 3600 + minutes * 60 + secs)%Z /\
    format_uptime 93784 = lit "1d 2h 3m 4s".
Proof.
  exists (seconds / 86400)%Z, ((seconds mod 86400) / 3600)%Z,
    ((seconds mod 3600) / 60)%Z, (seconds mod 60)%Z.
  split; [reflexivity|].
  repeat split; try (Z.div_mod_to_equations; lia).
Qed.

(** ** Reply padding *)

Lemma lstrip_all (drop : codepoint -> bool) (xs s : pystr) :
  Forall (fun c => drop c = true) xs ->
  lstrip drop (xs ++ s) = lstrip drop s.
Proof.
  induction 1 as [|x xs Hx _ IH]; [reflexivity|].
  cbn [List.app lstrip]. now rewrite Hx.
Qed.

Lemma rstrip_all (drop : codepoint -> bool) (s xs : pystr) :
  Forall (fun c => drop c = true) xs ->
  rstrip drop (s ++ xs) = rstrip drop s.
Proof.
  intros H. unfold rstrip. rewrite rev_app_distr, lstrip_all; [reflexivity|].
  apply Forall_rev. exact H.
Qed.

Lemma strip_padding_padded (lead text trail nuls : pystr) :
  ascii_space lead -> ascii_space trail -> nul_padding nuls -> tight text ->
  strip_padding (lead ++ text ++ trail ++ nuls) = text.
Proof.
  intros Hl Ht Hn (first & body & final & Hhead & Hlast & Hf & Hz & Hz0).
  unfold strip_padding.
  assert (Hn' : Forall (fun c => (0 =? c) = true) nuls).
  { eapply Forall_impl; [|exact Hn]. now intros c ->. }
  assert (Hl' : Forall (fun c => is_space c = true) lead).
  { eapply Forall_impl; [|exact Hl]. now intros c [H _]. }
  assert (Ht' : Forall (fun c => is_space c = true) trail).
  { eapply Forall_impl; [|exact Ht]. now intros c [H _]. }
  assert (Hkeep : rstrip (N.eqb 0) (lead ++ text ++ trail)
                  = lead ++ text ++ trail).
  { destruct (List.rev trail) as [|z rt] eqn:Hrev.
    - apply (f_equal (@List.rev _)) in Hrev. rewrite rev_involutive in Hrev.
      cbn in Hrev. subst trail. rewrite app_nil_r, Hlast, app_assoc.
      apply rstrip_last. now apply N.eqb_neq.
    - apply (f_equal (@List.rev _)) in Hrev. rewrite rev_involutive in Hrev.
      cbn in Hrev. subst trail. rewrite !app_assoc.
      apply rstrip_last. apply N.eqb_neq.
      apply Forall_app in Ht as [_ Hzs]. inversion Hzs as [|? ? [Hsp _] _].
      intros <-. discriminate. }
  replace (lead ++ text ++ trail ++ nuls)
    with ((lead ++ text ++ trail) ++ nuls)
    by (now rewrite <- !app_assoc).
  rewrite rstrip_all by exact Hn'. rewrite Hkeep.
  rewrite lstrip_all by exact Hl'.
  assert (Hfront : lstrip is_space (text ++ trail) = text ++ trail).
  { rewrite Hhead. cbn [List.app]. now apply lstrip_head. }
  rewrite Hfront, rstrip_all by exact Ht'.
  rewrite Hlast. now apply rstrip_last.
Qed.

(** X2. A reply the device pads is parsed as the bare reply: for every
    ASCII text that [json.loads] accepts and that has nothing to strip at
    its ends, leading whitespace, trailing whitespace and trailing NUL
    bytes after it do not change the parsed document. *)
Theorem parse_response_strips_padding
        (lead text trail nuls : pystr) (document : json) :
  ascii_text text -> tight text ->
  ascii_space lead -> ascii_space trail -> nul_padding nuls ->
  Codec.loads text = Some document ->
  parse_response (map Utf8.byte_of (lead ++ text ++ trail ++ nuls))
  = Ok document.
Proof.
  intros Ha Ht Hl Htr Hn Hloads. unfold parse_response.
  rewrite utf8_decode_ascii.
  - now rewrite strip_padding_padded, Hloads.
  - repeat apply ascii_text_app; try exact Ha.
    + eapply Forall_impl; [|exact Hl]. now intros c [_ H].
    + eapply Forall_impl; [|exact Htr]. now intros c [_ H].
    + eapply Forall_impl; [|exact Hn]. now intros c ->.
Qed.

Lemma parse_response_strips_padding_witness :
  parse_response
    (map Utf8.byte_of
         (lit " " ++ Codec.dumps status_ok_response ++ [10; 13] ++ [0; 0; 0]))
  = Ok status_ok_response.
Proof.
  apply parse_response_strips_padding.
  - apply Forall_forall. intros c Hc. vm_compute in Hc.
    repeat (destruct Hc as [<-|Hc]; [reflexivity|]). contradiction.
  - exists 123, (List.tl (Codec.dumps status_ok_response)), 125.
    repeat split; try reflexivity. discriminate.
  - repeat constructor.
  - repeat constructor.
  - repeat constructor.
  - vm_compute. reflexivity.
Defined.

Lemma rstrip_keeps_head (drop : codepoint -> bool) (a : codepoint)
      (t : pystr) :
  drop a = false -> exists t', rstrip drop (a :: t) = a :: t'.
Proof.
  intros Ha. unfold rstrip. cbn [List.rev].
  induction (List.rev t) as [|x r IH].
  - cbn. rewrite Ha. cbn. eauto.
  - cbn [List.app lstrip]. destruct (drop x).
    + exact IH.
    + exists (List.rev (x :: r)).
      change ((x :: r) ++ [a]) with (x :: r ++ [a]).
      change (x :: r ++ [a]) with ((x :: r) ++ [a]).
      rewrite rev_app_distr. reflexivity.
Qed.

Lemma lstrip_result (drop : codepoint -> bool) (s : pystr) :
  lstrip drop s = [] \/
  exists a t, lstrip drop s = a :: t /\ drop a = false /\ In a s.
Proof.
  induction s as [|c s IH]; [now left|].
  cbn [lstrip]. destruct (drop c) eqn:Hc.
  - destruct IH as [IH | (a & t & IH & Ha & Hin)]; [now left|].
    right. exists a, t. repeat split; auto. now right.
  - right. exists c, s. repeat split; auto. now left.
Qed.

Lemma rstrip_In (drop : codepoint -> bool) (s : pystr) (a : codepoint) :
  In a (rstrip drop s) -> In a s.
Proof.
  unfold rstrip. intros H. apply in_rev in H.
  apply in_rev. revert H. generalize (List.rev s) as r.
  induction r as [|x r IH]; cbn [lstrip]; [auto|].
  destruct (drop x); intros H; [right; auto | exact H].
Qed.

(** Text made of NUL and whitespace strips to nothing, or to text that
    starts with a NUL. *)
Lemma strip_padding_only_padding (text : pystr) :
  Forall (fun c => c = 0 \/ is_space c = true) text ->
  strip_padding text = [] \/ exists t, strip_padding text = 0 :: t.
Proof.
  intros H. unfold strip_padding.
  destruct (lstrip_result is_space (rstrip (N.eqb 0) text))
    as [-> | (a & t & -> & Ha & Hin)]; [now left|].
  right. apply rstrip_In in Hin.
  rewrite Forall_forall in H. destruct (H a Hin) as [-> | Hsp];
    [|congruence].
  now apply rstrip_keeps_head.
Qed.

(** X3. A reply that holds only padding, NUL bytes and ASCII whitespace in
    any order, the empty reply included, is rejected with [ValueError]:
    nothing is returned as an empty result. *)
Theorem parse_response_only_padding (text : pystr) :
  Forall (fun c => c = 0 \/ (is_space c = true /\ c < 128)) text ->
  parse_response (map Utf8.byte_of text) = Raise ValueError.
Proof.
  intros H. unfold parse_response.
  rewrite utf8_decode_ascii.
  - destruct (@strip_padding_only_padding text) as [-> | [t ->]].
    + eapply Forall_impl; [|exact H]. intros c [->|[Hs _]]; auto.
    + reflexivity.
    + reflexivity.
  - eapply Forall_impl; [|exact H]. cbv beta. intros c [->|[_ Hc]]; lia.
Qed.

Lemma parse_response_only_padding_witness :
  parse_response (map Utf8.byte_of [0; 0; 32; 10; 0]) = Raise ValueError.
Proof.
  apply parse_response_only_padding.
  repeat constructor; (now left) || (right; split; reflexivity).
Defined.

(** ** One connection per call *)

(** X4. Whatever the command, the parameter and the device, one call of
    [send_command] opens exactly one connection, writes ASCII bytes only,
    leaves the caller's input untouched, and fails, if it fails, with
    [ConnectionError] (timeout or socket error), [ValueError] (reply that
    is not JSON) or [Exception] (reply that is not UTF-8): never with
    another error, and never by exiting. *)
Theorem send_command_outcomes (command : pystr) (params : option pystr)
        (w : world) :
  exists payload,
    wire_bytes command params = Some payload /\
    Forall (fun b => Byte.to_N b < 128) payload /\
    trace (snd (send_command command params w))
    = trace w ++ [NetCall command
                          match params with Some p => p | None => [] end
                          payload] /\
    stdin (snd (send_command command params w)) = stdin w /\
    (forall e, fst (send_command command params w) = Raise e ->
               e = ConnectionError \/ e = ValueError \/ e = GenericException) /\
    (device w (List.length (net_calls (trace w))) payload = TimedOut \/
     device w (List.length (net_calls (trace w))) payload = SocketFailed ->
     fst (send_command command params w) = Raise ConnectionError).
Proof.
  set (p := match params with Some p => p | None => [] end).
  exists (map Utf8.byte_of (json_cmd command p)).
  assert (Hw : wire_bytes command params
               = Some (map Utf8.byte_of (json_cmd command p))).
  { unfold wire_bytes. apply wire_bytes_defined. }
  split; [exact Hw|]. split.
  { apply Forall_map. eapply Forall_impl; [|apply (json_cmd_ascii command p)].
    cbv beta. intros c Hc. rewrite byte_of_to_N; lia. }
  unfold send_command. fold p. rewrite wire_bytes_defined.
  destruct (device w (List.length (net_calls (trace w)))
                   (map Utf8.byte_of (json_cmd command p))) as [| |data];
    cbn [fst snd emit trace stdin]; repeat split; auto;
    try (intros e [= <-]; auto);
    try (intros [H|H]; discriminate).
  unfold parse_response. intros e.
  destruct (Utf8.decode data) as [text|]; [|intros [= <-]; auto].
  destruct (Codec.loads (strip_padding text)); [discriminate|].
  intros [= <-]; auto.
Qed.

(** ** The encoding is unambiguous *)

(** X5. Two calls write the same bytes only when they carry the same
    command name and the same parameter string: the wire form is
    injective, on strings free of a high surrogate followed by a low
    surrogate.  In particular a command with a non-empty parameter never
    writes what a command without one writes. *)
Theorem wire_bytes_injective (c1 p1 c2 p2 : pystr) :
  valid_str c1 -> no_surrogate_pair c1 ->
  valid_str p1 -> no_surrogate_pair p1 ->
  valid_str c2 -> no_surrogate_pair c2 ->
  valid_str p2 -> no_surrogate_pair p2 ->
  (wire_bytes c1 (Some p1) = wire_bytes c2 (Some p2) ->
   c1 = c2 /\ p1 = p2) /\
  (p1 <> [] -> wire_bytes c1 (Some p1) <> wire_bytes c2 None).
Proof.
  intros Hc1 Hn1 Hp1 Hm1 Hc2 Hn2 Hp2 Hm2.
  assert (Hdoc : forall c p,
             valid_str c -> no_surrogate_pair c ->
             valid_str p -> no_surrogate_pair p ->
             parse_response (map Utf8.byte_of (json_cmd c p))
             = Ok (match p with
                   | [] => JObj [(lit "command", JStr c)]
                   | _ :: _ => JObj [(lit "command", JStr c);
                                     (lit "parameter", JStr p)]
                   end)).
  { intros c p Hc Hn Hp Hm. apply parse_response_wire.
    destruct p as [|x p].
    - now apply loads_json_cmd_bare.
    - apply loads_json_cmd; auto. discriminate. }
  assert (Hinj : forall q,
             valid_str q -> no_surrogate_pair q ->
             wire_bytes c1 (Some p1) = wire_bytes c2 (Some q) ->
             c1 = c2 /\ p1 = q).
  { intros q Hq Hmq Heq.
    unfold wire_bytes in Heq. rewrite !wire_bytes_defined in Heq.
    injection Heq as Heq.
    pose proof (Hdoc c1 p1 Hc1 Hn1 Hp1 Hm1) as H1.
    pose proof (Hdoc c2 q Hc2 Hn2 Hq Hmq) as H2.
    rewrite Heq, H2 in H1.
    destruct p1, q; inversion H1; auto. }
  split.
  - now apply Hinj.
  - intros Hne Heq.
    change (wire_bytes c2 None) with (wire_bytes c2 (Some [])) in Heq.
    destruct (Hinj [] (Forall_nil _) I Heq) as [_ Hp]. now apply Hne.
Qed.

Lemma wire_bytes_injective_witness :
  wire_bytes (lit "lcd") (Some (lit "x")) <> wire_bytes (lit "lcd") (Some []) /\
  wire_bytes (lit "lcd") (Some (lit "x")) <> wire_bytes (lit "lcd") None.
Proof.
  destruct (@wire_bytes_injective (lit "lcd") (lit "x") (lit "lcd") [])
    as [Hsame Hnone].
  - repeat constructor.
  - vm_compute; tauto.
  - repeat constructor.
  - vm_compute; tauto.
  - repeat constructor.
  - vm_compute; tauto.
  - constructor.
  - exact I.
  - split.
    + intros H. destruct (Hsame H) as [_ E]. discriminate.
    + apply Hnone. discriminate.
Defined.

(** ** Computations that stay off the network *)

Lemma quiet_ret {A} (a : A) : quiet (ret a).
Proof. intros w. reflexivity. Qed.

Lemma quiet_lift {A} (r : result A) : quiet (lift r).
Proof. intros w. reflexivity. Qed.

Lemma quiet_sys_exit {A} (code : Z) : quiet (@sys_exit A code).
Proof. intros w. reflexivity. Qed.

Lemma quiet_print (text : pystr) : quiet (print text).
Proof.
  intros w. cbn. rewrite net_calls_app. cbn. apply app_nil_r.
Qed.

Lemma quiet_print_value (prefix : pystr) (v : json) :
  quiet (print_value prefix v).
Proof.
  intros w. cbn. rewrite net_calls_app. cbn. apply app_nil_r.
Qed.

Lemma quiet_print_json (v : json) : quiet (print_json v).
Proof.
  intros w. cbn. rewrite net_calls_app. cbn. apply app_nil_r.
Qed.

Lemma quiet_bind {A B} (m : IO A) (k : A -> IO B) :
  quiet m -> (forall a, quiet (k a)) -> quiet (io_bind m k).
Proof.
  intros Hm Hk w. unfold io_bind. specialize (Hm w).
  destruct (m w) as [[a|e] w1]; cbn [snd] in *.
  - now rewrite Hk.
  - exact Hm.
Qed.

Lemma quiet_dump_if (flag : bool) (response : json) :
  quiet (dump_if flag response).
Proof.
  destruct flag; [apply quiet_print_json | apply quiet_ret].
Qed.

Lemma quiet_print_response (flag : bool) (response : json) :
  quiet (print_response flag response).
Proof.
  unfold print_response. apply quiet_bind; [apply quiet_lift|].
  intros [status|]; apply quiet_bind;
    try apply quiet_ret; try (intros; apply quiet_dump_if).
  apply quiet_bind; [apply quiet_lift|]. intros; apply quiet_print_value.
Qed.

Lemma quiet_report (response : json) (success : pystr) (args : Namespace) :
  quiet (report response success args).
Proof. intros w. apply report_net_calls. Qed.

Lemma quiet_check_pool_id (id : Z) : quiet (check_pool_id id).
Proof.
  unfold check_pool_id.
  destruct (negb ((0 <=? id)%Z && (id <=? 2)%Z)); [|apply quiet_ret].
  apply quiet_bind; [apply quiet_print | intros; apply quiet_sys_exit].
Qed.

(** A command followed by a quiet continuation makes one network call. *)
Lemma send_then_quiet (command params : pystr) (k : json -> IO unit)
      (w : world) :
  (forall response, quiet (k response)) ->
  net_calls (trace (snd (io_bind (send_command command (Some params)) k w)))
  = net_calls (trace w) ++ [(command, params)].
Proof.
  intros Hk.
  pose proof (@send_command_net_calls command params w) as Hsend.
  unfold io_bind.
  destruct (send_command command (Some params) w) as [[response|e] w1];
    cbn [snd] in *; rewrite ?Hk; apply Hsend;
    rewrite wire_bytes_defined; discriminate.
Qed.

Lemma net_calls_print (text : pystr) (w : world) :
  net_calls (trace (emit (Print text) w)) = net_calls (trace w).
Proof. cbn. rewrite net_calls_app. cbn. apply app_nil_r. Qed.

(** ** Fan speed: precedence of the modes *)

(** X6. [--auto] wins over every other option and sends [0,fan-spd,-1];
    without it an exact speed wins over a range, is sent as
    [0,fan-spd,<pct>] when it lies in 25..100 and otherwise stops the run
    with status 1 before any network call; with neither, a range that
    lacks a bound stops the run the same way. *)
Theorem fan_mode_precedence (args : Namespace) (w : world) :
  (auto args = true ->
   net_calls (trace (snd (cmd_set_fan_speed args w)))
   = net_calls (trace w) ++ [(lit "ascset", lit "0,fan-spd,-1")]) /\
  (forall pct, auto args = false -> speed args = Some pct ->
     ((25 <= pct <= 100)%Z ->
      net_calls (trace (snd (cmd_set_fan_speed args w)))
      = net_calls (trace w)
          ++ [(lit "ascset", lit "0,fan-spd," ++ str_of_int pct)]) /\
     ((pct < 25 \/ 100 < pct)%Z ->
      fst (cmd_set_fan_speed args w) = Raise (SystemExit 1) /\
      net_calls (trace (snd (cmd_set_fan_speed args w)))
      = net_calls (trace w))) /\
  (auto args = false -> speed args = None ->
   min_speed args = None \/ max_speed args = None ->
   fst (cmd_set_fan_speed args w) = Raise (SystemExit 1) /\
   net_calls (trace (snd (cmd_set_fan_speed args w))) = net_calls (trace w)).
Proof.
  unfold cmd_set_fan_speed. split; [|split].
  - intros ->. rewrite io_bind_ret, io_bind_print. cbn [fst snd].
    rewrite send_then_quiet by (intros; apply quiet_report).
    now rewrite net_calls_print.
  - intros pct -> ->. split.
    + intros Hr.
      replace ((25 <=? pct)%Z && (pct <=? 100)%Z) with true
        by (symmetry; rewrite andb_true_iff, !Z.leb_le; lia).
      cbn [negb]. rewrite io_bind_ret, io_bind_print. cbn [fst snd].
      rewrite send_then_quiet by (intros; apply quiet_report).
      now rewrite net_calls_print.
    + intros Hbad.
      replace ((25 <=? pct)%Z && (pct <=? 100)%Z) with false
        by (symmetry; rewrite andb_false_iff, !Z.leb_gt; lia).
      cbn. rewrite net_calls_app. cbn. now rewrite app_nil_r.
  - intros -> -> [-> | ->].
    + cbn. rewrite net_calls_app. cbn. now rewrite app_nil_r.
    + destruct (min_speed args); cbn; rewrite net_calls_app; cbn;
        now rewrite app_nil_r.
Qed.

Lemma fan_mode_precedence_witness :
  net_calls (trace (snd (cmd_set_fan_speed conflicting_fan_args silent_world)))
  = [(lit "ascset", lit "0,fan-spd,-1")].
Proof.
  apply (proj1 (fan_mode_precedence conflicting_fan_args silent_world)).
  reflexivity.
Defined.


(** ** Reporting a rejection *)

(** X7. When the device rejects a command and sends its status as a list,
    the report of [cmd_set_fan_speed], [cmd_set_voltage], [cmd_reboot] and
    [cmd_reset_filter_clean] prints nothing and raises [AttributeError]:
    the command has been sent, and the device's message is lost.  A status
    sent as a bare object is printed. *)
Theorem report_raises_on_list_status (response : json) (success : pystr)
        (args : Namespace) (w : world) :
  check_status response = Ok false ->
  (forall items,
      py_getitem response (lit "STATUS") = Ok (JArr items) ->
      report response success args w = (Raise AttributeError, w) /\
      forall w1,
        send_command (lit "ascset") (Some (lit "0,filter-clean,1"))
                     (emit (Print (10 :: lit "Resetting filter clean reminder..."))
                           w)
        = (Ok response, w1) ->
        cmd_reset_filter_clean args w = (Raise AttributeError, w1)) /\
  (forall entry,
      py_getitem response (lit "STATUS") = Ok (JObj entry) ->
      exists msg,
        py_get (JObj entry) (lit "Msg") (JStr (lit "Unknown")) = Ok msg /\
        fst (report response success args w) = Ok tt /\
        trace (snd (report response success args w))
        = trace w ++ [PrintValue (lit "Command response: ") msg]
            ++ (if json_out args then [PrintJson response] else [])).
Proof.
  intros Hcs. split.
  - intros items Hst.
    assert (Hrep : forall text w0,
               report response text args w0 = (Raise AttributeError, w0)).
    { intros text w0. unfold report, io_bind, lift. rewrite Hcs.
      destruct response as [| | | | | |d]; try discriminate.
      unfold py_getitem in Hst. unfold py_get at 1.
      destruct (Dict.get (lit "STATUS") d); [|discriminate].
      injection Hst as ->. reflexivity. }
    split; [apply Hrep|].
    intros w1 Hsend. unfold cmd_reset_filter_clean.
    rewrite io_bind_print. unfold io_bind. rewrite Hsend. apply Hrep.
  - intros entry Hst.
    destruct response as [| | | | | |d]; try discriminate.
    unfold py_getitem in Hst.
    destruct (Dict.get (lit "STATUS") d) as [v|] eqn:Hg; [|discriminate].
    injection Hst as ->.
    eexists. split; [reflexivity|].
    unfold report, io_bind, lift, py_get, print_value, print_json, ret, emit.
    rewrite Hcs, Hg.
    destruct (json_out args); cbn [fst snd trace]; split; try reflexivity.
    now rewrite <- app_assoc.
Qed.

Lemma report_raises_on_list_status_witness :
  report status_rejected_response (lit "Fan speed set successfully")
         voltage_args silent_world
  = (Raise AttributeError, silent_world).
Proof.
  refine (proj1 (proj1 (@report_raises_on_list_status
                          status_rejected_response _ voltage_args
                          silent_world _) _ _)).
  - reflexivity.
  - reflexivity.
Defined.


(** Close a goal [quiet m] for a computation built from prints, exits and
    pure steps. *)
Ltac solve_quiet :=
  repeat first
    [ apply quiet_ret | apply quiet_lift | apply quiet_sys_exit
    | apply quiet_print | apply quiet_print_value | apply quiet_print_json
    | apply quiet_dump_if | apply quiet_print_response | apply quiet_report
    | apply quiet_check_pool_id
    | apply quiet_bind; [|intros]
    | match goal with
      | |- quiet (if ?b then _ else _) => destruct b
      | |- quiet (match ?x with _ => _ end) => destruct x
      end ].

Lemma quiet_work_mode_report (response : json) (args : WorkModeArgs) :
  quiet (work_mode_report response args).
Proof. unfold work_mode_report. solve_quiet. Qed.

Lemma quiet_target_temp_report (response : json) (args : TempArgs) :
  quiet (target_temp_report response args).
Proof. unfold target_temp_report. solve_quiet. Qed.

(** ** Work mode and target temperature *)

(** X8. [cmd_set_work_mode] sends [ascset] once with
    [0,workmode,set,<mode>] when the mode is 0, 1 or 2, and otherwise
    prints one error line and exits with status 1 before any network call.
    On a rejection it prints the device's message whether the status came
    as a non-empty list or as a bare object, and raises [IndexError] on an
    empty list. *)
Theorem set_work_mode_checked (args : WorkModeArgs) (w : world) :
  ((mode args = 0 \/ mode args = 1 \/ mode args = 2)%Z ->
   net_calls (trace (snd (cmd_set_work_mode args w)))
   = net_calls (trace w)
       ++ [(lit "ascset",
            lit "0,workmode,set," ++ str_of_int (mode args))]) /\
  ((mode args < 0 \/ 2 < mode args)%Z ->
   fst (cmd_set_work_mode args w) = Raise (SystemExit 1) /\
   net_calls (trace (snd (cmd_set_work_mode args w))) = net_calls (trace w)) /\
  (forall response,
      check_status response = Ok false ->
      (forall entry rest,
          py_getitem response (lit "STATUS") = Ok (JArr (JObj entry :: rest))
          \/ py_getitem response (lit "STATUS") = Ok (JObj entry) ->
          exists msg,
            py_get (JObj entry) (lit "Msg") (JStr (lit "Unknown")) = Ok msg /\
            fst (work_mode_report response args w) = Ok tt /\
            trace (snd (work_mode_report response args w))
            = trace w ++ [PrintValue (lit "Command response: ") msg]
                ++ (if mode_json args then [PrintJson response] else [])) /\
      (py_getitem response (lit "STATUS") = Ok (JArr []) ->
       work_mode_report response args w = (Raise IndexError, w))).
Proof.
  split; [|split].
  - intros Hm. unfold cmd_set_work_mode.
    replace ((mode args =? 0)%Z || (mode args =? 1)%Z || (mode args =? 2)%Z)
      with true
      by (symmetry; rewrite !orb_true_iff, !Z.eqb_eq; tauto).
    cbn [negb]. rewrite io_bind_ret, io_bind_print.
    rewrite send_then_quiet by (intros; apply quiet_work_mode_report).
    now rewrite net_calls_print.
  - intros Hm. unfold cmd_set_work_mode.
    replace ((mode args =? 0)%Z || (mode args =? 1)%Z || (mode args =? 2)%Z)
      with false
      by (symmetry; rewrite !orb_false_iff, !Z.eqb_neq; lia).
    cbn. rewrite net_calls_app. cbn. now rewrite app_nil_r.
  - intros response Hcs. split.
    + intros entry rest Hst.
      destruct response as [| | | | | |d];
        try (destruct Hst; discriminate).
      unfold py_getitem in Hst.
      destruct (Dict.get (lit "STATUS") d) as [v|] eqn:Hg;
        [|destruct Hst; discriminate].
      eexists. split; [reflexivity|].
      unfold work_mode_report, io_bind, lift, py_get, print_value,
        dump_if, print_json, ret, emit.
      rewrite Hcs, Hg.
      destruct Hst as [[= ->] | [= ->]]; cbn [is_list py_first];
        destruct (mode_json args); cbn [fst snd trace]; split;
        try reflexivity; now rewrite <- app_assoc.
    + intros Hst.
      destruct response as [| | | | | |d]; try discriminate.
      unfold py_getitem in Hst.
      destruct (Dict.get (lit "STATUS") d) as [v|] eqn:Hg; [|discriminate].
      injection Hst as ->.
      unfold work_mode_report, io_bind, lift, py_get.
      rewrite Hcs, Hg. reflexivity.
Qed.


Lemma set_work_mode_checked_witness :
  net_calls (trace (snd (cmd_set_work_mode eco_args silent_world)))
  = [(lit "ascset", lit "0,workmode,set,0")].
Proof.
  apply (proj1 (set_work_mode_checked eco_args silent_world)).
  left; reflexivity.
Defined.

(** X9. [cmd_set_target_temp] sends [ascset] once with
    [0,target-temp,<c>] when the temperature lies in 50..90, and otherwise
    prints one error line and exits with status 1 before any network
    call. *)
Theorem set_target_temp_checked (args : TempArgs) (w : world) :
  ((50 <= temperature args <= 90)%Z ->
   net_calls (trace (snd (cmd_set_target_temp args w)))
   = net_calls (trace w)
       ++ [(lit "ascset",
            lit "0,target-temp," ++ str_of_int (temperature args))]) /\
  ((temperature args < 50 \/ 90 < temperature args)%Z ->
   fst (cmd_set_target_temp args w) = Raise (SystemExit 1) /\
   net_calls (trace (snd (cmd_set_target_temp args w)))
   = net_calls (trace w) /\
   exists msg, trace (snd (cmd_set_target_temp args w))
               = trace w ++ [Print msg]).
Proof.
  unfold cmd_set_target_temp. split.
  - intros Hr.
    replace ((50 <=? temperature args)%Z && (temperature args <=? 90)%Z)
      with true
      by (symmetry; rewrite andb_true_iff, !Z.leb_le; lia).
    cbn [negb]. rewrite io_bind_ret, io_bind_print.
    rewrite send_then_quiet by (intros; apply quiet_target_temp_report).
    now rewrite net_calls_print.
  - intros Hbad.
    replace ((50 <=? temperature args)%Z && (temperature args <=? 90)%Z)
      with false
      by (symmetry; rewrite andb_false_iff, !Z.leb_gt; lia).
    cbn. rewrite net_calls_app. cbn. rewrite app_nil_r. eauto.
Qed.

Lemma set_target_temp_checked_witness :
  net_calls (trace (snd (cmd_set_target_temp (temp_args 65) silent_world)))
  = [(lit "ascset", lit "0,target-temp,65")] /\
  fst (cmd_set_target_temp (temp_args 95) silent_world)
  = Raise (SystemExit 1).
Proof.
  split.
  - apply (proj1 (set_target_temp_checked (temp_args 65) silent_world)).
    cbn; lia.
  - apply (proj2 (set_target_temp_checked (temp_args 95) silent_world)).
    right; cbn; lia.
Defined.

(** ** Forced and confirmed operations *)

(** Sending a command and reporting on the reply reads no input. *)
Lemma send_then_report_stdin (command params success : pystr)
      (args : Namespace) (w0 : world) :
  stdin (snd (io_bind (send_command command (Some params))
                (fun response => report response success args) w0))
  = stdin w0.
Proof.
  unfold io_bind, send_command. rewrite wire_bytes_defined.
  destruct (device w0 _ _) as [| |data]; try reflexivity.
  cbn [emit]. destruct (parse_response data) as [response|e];
    [|reflexivity].
  unfold report, io_bind, lift, print, print_value, print_json, ret, emit.
  destruct (check_status response) as [[|]|e]; cbn [fst snd stdin].
  - destruct (json_out args); reflexivity.
  - destruct (py_get response (lit "STATUS") (JObj [])) as [st|e];
      [|reflexivity].
    destruct (py_get st (lit "Msg") (JStr (lit "Unknown"))) as [msg|e];
      [|reflexivity].
    destruct (json_out args); reflexivity.
  - reflexivity.
Qed.

(** X10. With [--force] the caller is never asked: [cmd_set_voltage]
    sends [0,voltage,<v>] for every integer, there being no range check,
    and [cmd_reboot] sends [0,reboot,<delay>] for a delay in 0..300; no
    line of input is read.  With a delay outside 0..300 [cmd_reboot] exits
    with status 1 before asking and before any network call, forced or
    not. *)
Theorem forced_operations (lower : pystr -> pystr) (args : Namespace)
        (w : world) :
  (force args = true ->
   net_calls (trace (snd (cmd_set_voltage lower args w)))
   = net_calls (trace w)
       ++ [(lit "ascset", lit "0,voltage," ++ str_of_int (voltage args))] /\
   stdin (snd (cmd_set_voltage lower args w)) = stdin w /\
   ((0 <= delay args <= 300)%Z ->
    net_calls (trace (snd (cmd_reboot lower args w)))
    = net_calls (trace w)
        ++ [(lit "ascset", lit "0,reboot," ++ str_of_int (delay args))] /\
    stdin (snd (cmd_reboot lower args w)) = stdin w)) /\
  ((delay args < 0 \/ 300 < delay args)%Z ->
   cmd_reboot lower args w
   = (Raise (SystemExit 1),
      emit (Print (lit "Error: Delay must be between 0 and 300 seconds")) w)).
Proof.
  split.
  - intros Hf. split; [|split].
    + unfold cmd_set_voltage, confirm_unless_forced. rewrite Hf. cbn [negb].
      rewrite !io_bind_print, io_bind_ret.
      rewrite send_then_quiet by (intros; apply quiet_report).
      now rewrite !net_calls_print.
    + unfold cmd_set_voltage, confirm_unless_forced. rewrite Hf. cbn [negb].
      rewrite !io_bind_print, io_bind_ret.
      now rewrite send_then_report_stdin.
    + intros Hd. unfold cmd_reboot, confirm_unless_forced. rewrite Hf.
      replace ((0 <=? delay args)%Z && (delay args <=? 300)%Z) with true
        by (symmetry; rewrite andb_true_iff, !Z.leb_le; lia).
      cbn [negb]. rewrite io_bind_ret.
      destruct (delay args >? 0)%Z; rewrite io_bind_print, io_bind_ret;
        (split; [rewrite send_then_quiet by (intros; apply quiet_report);
                 now rewrite net_calls_print
                | now rewrite send_then_report_stdin]).
  - intros Hd. unfold cmd_reboot.
    replace ((0 <=? delay args)%Z && (delay args <=? 300)%Z) with false
      by (symmetry; rewrite andb_false_iff, !Z.leb_gt; lia).
    reflexivity.
Qed.

Lemma forced_operations_witness :
  net_calls
    (trace (snd (cmd_reboot ascii_lower (forced_reboot_args 30)
                   (answering (lit "no")))))
  = [(lit "ascset", lit "0,reboot,30")] /\
  fst (cmd_reboot ascii_lower (forced_reboot_args 301) (answering (lit "yes")))
  = Raise (SystemExit 1).
Proof.
  split.
  - apply (proj1 (forced_operations ascii_lower (forced_reboot_args 30)
                    (answering (lit "no")))); [reflexivity | cbn; lia].
  - rewrite (proj2 (forced_operations ascii_lower (forced_reboot_args 301)
                      (answering (lit "yes")))); [reflexivity|].
    right; cbn; lia.
Defined.

(** X11. Without [--force], an answer that lowercases to "yes" lets the
    operation proceed: the caller is asked once, one line of input is
    consumed, and the command is sent. *)
Theorem confirmed_operations (lower : pystr -> pystr) (args : Namespace)
        (w : world) (answer : pystr) (rest : list pystr) :
  force args = false -> stdin w = answer :: rest ->
  lower answer = lit "yes" ->
  net_calls (trace (snd (cmd_set_voltage lower args w)))
  = net_calls (trace w)
      ++ [(lit "ascset", lit "0,voltage," ++ str_of_int (voltage args))] /\
  stdin (snd (cmd_set_voltage lower args w)) = rest /\
  ((0 <= delay args <= 300)%Z ->
   net_calls (trace (snd (cmd_reboot lower args w)))
   = net_calls (trace w)
       ++ [(lit "ascset", lit "0,reboot," ++ str_of_int (delay args))] /\
   stdin (snd (cmd_reboot lower args w)) = rest).
Proof.
  intros Hf Hin Hyes.
  assert (Hconfirm : forall prompt w0,
             stdin w0 = answer :: rest ->
             confirm_unless_forced lower args prompt w0
             = (Ok true,
                {| device := device w0; stdin := rest;
                   trace := trace w0 ++ [Prompt prompt] |})).
  { intros prompt w0 Hw0. unfold confirm_unless_forced. rewrite Hf.
    cbn [negb]. unfold io_bind at 1. unfold input.
    rewrite Hw0, Hyes, str_eqb_refl. reflexivity. }
  split; [|split].
  - unfold cmd_set_voltage. rewrite !io_bind_print. unfold io_bind at 1.
    rewrite Hconfirm by exact Hin.
    rewrite send_then_quiet by (intros; apply quiet_report).
    cbn [trace emit]. rewrite !net_calls_app. cbn.
    now rewrite !app_nil_r.
  - unfold cmd_set_voltage. rewrite !io_bind_print. unfold io_bind at 1.
    rewrite Hconfirm by exact Hin. cbv beta iota.
    now rewrite send_then_report_stdin.
  - intros Hd. unfold cmd_reboot.
    replace ((0 <=? delay args)%Z && (delay args <=? 300)%Z) with true
      by (symmetry; rewrite andb_true_iff, !Z.leb_le; lia).
    cbn [negb]. rewrite io_bind_ret.
    destruct (delay args >? 0)%Z; rewrite !io_bind_print;
      (split; unfold io_bind at 1; rewrite Hconfirm by exact Hin;
       [rewrite send_then_quiet by (intros; apply quiet_report);
        cbn [trace emit]; rewrite !net_calls_app; cbn;
        now rewrite !app_nil_r
       | cbv beta iota; now rewrite send_then_report_stdin]).
Qed.

Lemma confirmed_operations_witness :
  net_calls
    (trace (snd (cmd_set_voltage ascii_lower voltage_args
                   (answering (lit "YES")))))
  = [(lit "ascset", lit "0,voltage,1200")].
Proof.
  apply (proj1 (@confirmed_operations ascii_lower voltage_args
                  (answering (lit "YES")) (lit "YES") []
                  eq_refl eq_refl eq_refl)).
Defined.


(** ** Pool commands *)

(** X12. The pool commands check the pool index before any I/O: with an
    index in 0..2 each sends its command once, [enablepool],
    [disablepool] and [switchpool] with the bare index and [setpool] with
    [admin,<password>,<index>,<url>,<user>,<pool password>]; with any
    other index each prints one error line and exits with status 1
    without a network call. *)
Theorem pool_commands_checked (args : PoolArgs) (sargs : SetPoolArgs)
        (w : world) :
  ((0 <= pool_id args <= 2)%Z ->
   net_calls (trace (snd (cmd_enable_pool args w)))
   = net_calls (trace w) ++ [(lit "enablepool", str_of_int (pool_id args))] /\
   net_calls (trace (snd (cmd_disable_pool args w)))
   = net_calls (trace w) ++ [(lit "disablepool", str_of_int (pool_id args))] /\
   net_calls (trace (snd (cmd_switch_pool args w)))
   = net_calls (trace w) ++ [(lit "switchpool", str_of_int (pool_id args))]) /\
  ((pool_id args < 0 \/ 2 < pool_id args)%Z ->
   cmd_enable_pool args w
   = (Raise (SystemExit 1),
      emit (Print (lit "Error: Pool ID must be 0, 1, or 2")) w) /\
   cmd_disable_pool args w
   = (Raise (SystemExit 1),
      emit (Print (lit "Error: Pool ID must be 0, 1, or 2")) w) /\
   cmd_switch_pool args w
   = (Raise (SystemExit 1),
      emit (Print (lit "Error: Pool ID must be 0, 1, or 2")) w)) /\
  ((0 <= sp_pool_id sargs <= 2)%Z ->
   net_calls (trace (snd (cmd_set_pool sargs w)))
   = net_calls (trace w)
       ++ [(lit "setpool",
            lit "admin," ++ password sargs ++ lit ","
              ++ str_of_int (sp_pool_id sargs) ++ lit ","
              ++ url sargs ++ lit "," ++ username sargs ++ lit ","
              ++ pool_password sargs)]) /\
  ((sp_pool_id sargs < 0 \/ 2 < sp_pool_id sargs)%Z ->
   cmd_set_pool sargs w
   = (Raise (SystemExit 1),
      emit (Print (lit "Error: Pool ID must be 0, 1, or 2")) w)).
Proof.
  assert (Hok : forall id, (0 <= id <= 2)%Z -> check_pool_id id = ret tt).
  { intros id Hid. unfold check_pool_id.
    replace ((0 <=? id)%Z && (id <=? 2)%Z) with true
      by (symmetry; rewrite andb_true_iff, !Z.leb_le; lia).
    reflexivity. }
  assert (Hbad : forall id w0, (id < 0 \/ 2 < id)%Z ->
             check_pool_id id w0
             = (Raise (SystemExit 1),
                emit (Print (lit "Error: Pool ID must be 0, 1, or 2")) w0)).
  { intros id w0 Hid. unfold check_pool_id.
    replace ((0 <=? id)%Z && (id <=? 2)%Z) with false
      by (symmetry; rewrite andb_false_iff, !Z.leb_gt; lia).
    reflexivity. }
  split; [|split; [|split]].
  - intros Hid.
    unfold cmd_enable_pool, cmd_disable_pool, cmd_switch_pool.
    rewrite (Hok _ Hid), !io_bind_ret, !io_bind_print.
    rewrite !send_then_quiet by (intros; apply quiet_print_response).
    now rewrite !net_calls_print.
  - intros Hid.
    unfold cmd_enable_pool, cmd_disable_pool, cmd_switch_pool, io_bind.
    now rewrite (Hbad _ w Hid).
  - intros Hid. unfold cmd_set_pool.
    rewrite (Hok _ Hid), !io_bind_ret, !io_bind_print.
    rewrite !send_then_quiet by (intros; apply quiet_print_response).
    now rewrite !net_calls_print.
  - intros Hid. unfold cmd_set_pool, io_bind. now rewrite (Hbad _ w Hid).
Qed.

Lemma pool_commands_checked_witness :
  net_calls (trace (snd (cmd_switch_pool (pool_args 1) silent_world)))
  = [(lit "switchpool", lit "1")] /\
  fst (cmd_enable_pool (pool_args 3) silent_world) = Raise (SystemExit 1) /\
  net_calls (trace (snd (cmd_set_pool (set_pool_args 2) silent_world)))
  = [(lit "setpool",
      lit "admin,root,2,stratum+tcp://pool.example.com:3333,worker,x")].
Proof.
  pose proof (pool_commands_checked (pool_args 1) (set_pool_args 2)
                silent_world) as (H1 & _ & H3 & _).
  pose proof (pool_commands_checked (pool_args 3) (set_pool_args 2)
                silent_world) as (_ & H2 & _).
  split; [|split].
  - apply H1. cbn; lia.
  - destruct H2 as [H2 _]; [right; cbn; lia|]. now rewrite H2.
  - apply H3. cbn; lia.
Defined.

(** X13. The reply handling of the pool commands prints the device's
    message whether the status came as a non-empty list or as a non-empty
    bare object, and prints nothing for a response without a status; it
    does not raise on either shape. *)
Theorem print_response_shapes (d : list (pystr * json)) (flag : bool)
        (w : world) :
  (forall entry rest,
      Dict.get (lit "STATUS") d = Some (JArr (JObj entry :: rest)) \/
      (entry <> [] /\ Dict.get (lit "STATUS") d = Some (JObj entry)) ->
      exists msg,
        py_get (JObj entry) (lit "Msg") (JStr (lit "Unknown")) = Ok msg /\
        print_response flag (JObj d) w
        = (Ok tt,
           {| device := device w; stdin := stdin w;
              trace := (trace w ++ [PrintValue (lit "Response: ") msg])
                         ++ (if flag then [PrintJson (JObj d)] else []) |})) /\
  (Dict.get (lit "STATUS") d = None \/
   Dict.get (lit "STATUS") d = Some (JArr []) \/
   Dict.get (lit "STATUS") d = Some (JObj []) ->
   print_response flag (JObj d) w
   = (Ok tt,
      {| device := device w; stdin := stdin w;
         trace := trace w ++ (if flag then [PrintJson (JObj d)] else []) |})).
Proof.
  split.
  - intros entry rest Hst. eexists. split; [reflexivity|].
    unfold print_response, firstOf, io_bind, lift, bind, py_in, py_getitem,
      py_len, py_get, print_value, dump_if, print_json, ret, emit.
    destruct Hst as [Hst | [Hne Hst]]; rewrite Hst.
    + cbn [is_list py_first List.length N.of_nat].
      destruct flag; cbn; rewrite ?app_nil_r; reflexivity.
    + destruct entry as [|f o]; [congruence|].
      cbn [is_list List.length].
      destruct flag; cbn; rewrite ?app_nil_r; reflexivity.
  - unfold print_response, firstOf, io_bind, lift, bind, py_in, py_getitem,
      py_len, dump_if, print_json, ret, emit.
    intros [H | [H | H]]; rewrite H; destruct flag; cbn;
      rewrite ?app_nil_r; try reflexivity; destruct w; reflexivity.
Qed.

Lemma print_response_shapes_witness :
  fst (print_response false status_rejected_response silent_world) = Ok tt /\
  trace (snd (print_response false status_rejected_response silent_world))
  = [PrintValue (lit "Response: ") (JStr (lit "Error: invalid"))].
Proof.
  destruct (proj1 (print_response_shapes
                     [(lit "STATUS",
                       JArr [JObj [(lit "STATUS", JStr (lit "E"));
                                   (lit "Msg", JStr (lit "Error: invalid"))]])]
                     false silent_world)
                  [(lit "STATUS", JStr (lit "E"));
                   (lit "Msg", JStr (lit "Error: invalid"))] []
                  (or_introl eq_refl)) as (msg & Hmsg & Hrun).
  injection Hmsg as <-.
  unfold status_rejected_response. rewrite Hrun. split; reflexivity.
Defined.

(** ** Pool priority *)

Lemma split_comma_nonempty (s : pystr) : split_comma s <> [].
Proof.
  induction s as [|c s IH]; cbn [split_comma]; [discriminate|].
  destruct (c =? 44); [discriminate|].
  destruct (split_comma s); discriminate.
Qed.

(** Splitting at a comma splits the list of pieces. *)
Lemma split_comma_app (a b : pystr) :
  split_comma (a ++ 44 :: b) = split_comma a ++ split_comma b.
Proof.
  induction a as [|c a IH]; [reflexivity|].
  cbn [List.app split_comma]. rewrite IH.
  destruct (c =? 44); [reflexivity|].
  pose proof (split_comma_nonempty a) as Hne.
  destruct (split_comma a) as [|piece pieces]; [congruence | reflexivity].
Qed.

Lemma strip_padded_digit (lead trail : pystr) (d : codepoint) :
  Forall (fun c => is_space c = true) lead ->
  Forall (fun c => is_space c = true) trail ->
  is_space d = false ->
  strip (lead ++ [d] ++ trail) = [d].
Proof.
  intros Hl Ht Hd. unfold strip.
  rewrite lstrip_all by exact Hl.
  cbn [List.app]. rewrite lstrip_head by exact Hd.
  change (d :: trail) with ([d] ++ trail).
  rewrite rstrip_all by exact Ht.
  change [d] with ([] ++ [d]). now apply rstrip_last.
Qed.

Lemma split_comma_no_comma (s : pystr) :
  ~ In 44 s -> split_comma s = [s].
Proof.
  induction s as [|c s IH]; [reflexivity|].
  intros Hn. cbn [split_comma].
  destruct (N.eqb_spec c 44) as [->|_]; [exfalso; apply Hn; now left|].
  rewrite IH; [reflexivity|]. intros H. apply Hn. now right.
Qed.

(** X14. [cmd_set_pool_priority] sends the priority string exactly as
    typed when the guard accepts it, and otherwise prints one error line
    and exits with status 1 without a network call.  The guard accepts a
    list piece by piece: a pool id 0, 1 or 2 with any whitespace around it
    is accepted, the empty string and a list with a leading or a trailing
    comma are rejected, and a list is accepted exactly when the parts on
    both sides of any comma are, so neither the number of ids nor their
    distinctness is checked. *)
Theorem set_pool_priority_checked (args : PriorityArgs) (w : world) :
  (accepted_priority (priority args) = true ->
   net_calls (trace (snd (cmd_set_pool_priority args w)))
   = net_calls (trace w) ++ [(lit "poolpriority", priority args)]) /\
  (accepted_priority (priority args) = false ->
   cmd_set_pool_priority args w
   = (Raise (SystemExit 1),
      emit (Print (lit "Error: Priority must be comma-separated pool IDs (0, 1, 2)"))
           w)) /\
  accepted_priority [] = false /\
  (forall s, accepted_priority (s ++ [44]) = false) /\
  (forall s, accepted_priority (44 :: s) = false) /\
  (forall a b, accepted_priority (a ++ 44 :: b)
               = accepted_priority a && accepted_priority b) /\
  (forall lead trail d,
      Forall (fun c => is_space c = true) lead ->
      Forall (fun c => is_space c = true) trail ->
      d = 48 \/ d = 49 \/ d = 50 ->
      accepted_priority (lead ++ [d] ++ trail) = true).
Proof.
  assert (Happ : forall a b, accepted_priority (a ++ 44 :: b)
                             = accepted_priority a && accepted_priority b).
  { intros a b. unfold accepted_priority.
    now rewrite split_comma_app, forallb_app. }
  split; [|split; [|split; [|split; [|split; [|split]]]]].
  - intros Hacc. unfold cmd_set_pool_priority.
    fold (accepted_priority (priority args)). rewrite Hacc. cbn [negb].
    rewrite io_bind_ret, io_bind_print.
    rewrite send_then_quiet by (intros; apply quiet_print_response).
    now rewrite net_calls_print.
  - intros Hrej. unfold cmd_set_pool_priority.
    fold (accepted_priority (priority args)). rewrite Hrej. reflexivity.
  - reflexivity.
  - intros s. change (s ++ [44]) with (s ++ 44 :: []).
    rewrite Happ. apply andb_false_r.
  - intros s. change (44 :: s) with ([] ++ 44 :: s). now rewrite Happ.
  - exact Happ.
  - intros lead trail d Hl Ht Hd. unfold accepted_priority.
    rewrite split_comma_no_comma.
    + cbn [forallb]. rewrite strip_padded_digit; auto.
      * destruct Hd as [-> | [-> | ->]]; reflexivity.
      * destruct Hd as [-> | [-> | ->]]; reflexivity.
    + intros Hin. apply in_app_or in Hin as [Hin | Hin].
      * rewrite Forall_forall in Hl. specialize (Hl _ Hin). discriminate.
      * apply in_app_or in Hin as [Hin | Hin].
        -- destruct Hin as [Hin | Hin]; [|contradiction].
           destruct Hd as [-> | [-> | ->]]; discriminate.
        -- rewrite Forall_forall in Ht. specialize (Ht _ Hin). discriminate.
Qed.

Lemma set_pool_priority_checked_witness :
  net_calls
    (trace (snd (cmd_set_pool_priority (priority_args (lit "1, 0,1"))
                   silent_world)))
  = [(lit "poolpriority", lit "1, 0,1")] /\
  fst (cmd_set_pool_priority (priority_args (lit "0,3")) silent_world)
  = Raise (SystemExit 1).
Proof.
  split.
  - apply (proj1 (set_pool_priority_checked (priority_args (lit "1, 0,1"))
                    silent_world)).
    reflexivity.
  - rewrite (proj1 (proj2 (set_pool_priority_checked
                             (priority_args (lit "0,3")) silent_world)));
      reflexivity.
Defined.


(** ** Reading the work mode *)

Lemma parse_estats_field_nonempty (mm name v : pystr) :
  parse_estats_field mm name = Some v -> v <> [] /\ mm <> [].
Proof.
  unfold parse_estats_field.
  destruct (Regex.search (estats_pattern name) mm) as [g|] eqn:Hs;
    [|discriminate].
  apply search_some in Hs as (pre & t & -> & Hm & _).
  apply match_here_estats in Hm as (v0 & post & -> & Hne & _ & ->).
  intros [= <-]. split; [exact Hne|].
  intros H. apply app_eq_nil in H as [_ H].
  apply app_eq_nil in H as [_ H]. discriminate.
Qed.

(** X15. [cmd_get_work_mode] asks for [estats] and, when the packed
    statistics of the reply hold a WORKMODE token, prints the mode name and
    the code: "Current Mode     : <name> (Mode <code>)".  When the packed
    string has no such token it prints an error line, and when the reply
    has no STATS section it prints nothing and returns normally. *)
Theorem get_work_mode_reports (args : Namespace) (w w1 : world)
        (response : json) :
  send_command (lit "estats") None w = (Ok response, w1) ->
  (forall stats mm v,
      firstOf response (lit "STATS") = Ok (Some stats) ->
      py_get stats (lit "MM ID0") (JStr []) = Ok (JStr mm) ->
      parse_estats_field mm (lit "WORKMODE") = Some v ->
      fst (cmd_get_work_mode args w) = Ok tt /\
      trace (snd (cmd_get_work_mode args w))
      = trace w1
          ++ [Print (10 :: lit "=== Work Mode ===");
              Print (lit "Current Mode     : " ++ get_work_mode_name v
                       ++ lit " (Mode " ++ v ++ lit ")");
              Print []]
          ++ (if json_out args then [PrintJson response] else [])) /\
  (forall stats mm,
      firstOf response (lit "STATS") = Ok (Some stats) ->
      py_get stats (lit "MM ID0") (JStr []) = Ok (JStr mm) ->
      mm <> [] ->
      parse_estats_field mm (lit "WORKMODE") = None ->
      fst (cmd_get_work_mode args w) = Ok tt /\
      trace (snd (cmd_get_work_mode args w))
      = trace w1
          ++ [Print (10 :: lit "=== Work Mode ===");
              Print (lit "Error: Could not retrieve work mode");
              Print []]
          ++ (if json_out args then [PrintJson response] else [])) /\
  (firstOf response (lit "STATS") = Ok None ->
   fst (cmd_get_work_mode args w) = Ok tt /\
   trace (snd (cmd_get_work_mode args w))
   = trace w1 ++ (if json_out args then [PrintJson response] else [])).
Proof.
  intros Hsend. split; [|split].
  - intros stats mm v Hsel Hmm Hparse.
    destruct (parse_estats_field_nonempty _ _ Hparse) as [Hv Hne].
    unfold cmd_get_work_mode, io_bind, lift. rewrite Hsend, Hsel, Hmm.
    destruct mm as [|c0 mm0]; [congruence|]. cbn [py_truthy parse_field].
    rewrite Hparse. destruct v as [|c v]; [congruence|].
    unfold print, dump_if, print_json, ret, emit.
    destruct (json_out args); cbn [fst snd trace]; split; try reflexivity;
      rewrite <- ?app_assoc; cbn [List.app]; rewrite ?app_nil_r;
      reflexivity.
  - intros stats mm Hsel Hmm Hne Hparse.
    unfold cmd_get_work_mode, io_bind, lift. rewrite Hsend, Hsel, Hmm.
    destruct mm as [|c0 mm0]; [congruence|]. cbn [py_truthy parse_field].
    rewrite Hparse.
    unfold print, dump_if, print_json, ret, emit.
    destruct (json_out args); cbn [fst snd trace]; split; try reflexivity;
      rewrite <- ?app_assoc; cbn [List.app]; rewrite ?app_nil_r;
      reflexivity.
  - intros Hsel.
    unfold cmd_get_work_mode, io_bind, lift. rewrite Hsend, Hsel.
    unfold dump_if, print_json, ret, emit.
    destruct (json_out args); cbn [fst snd trace]; split; try reflexivity.
    now rewrite app_nil_r.
Qed.

Lemma get_work_mode_reports_witness :
  trace (snd (cmd_get_work_mode voltage_args estats_world))
  = trace (snd (send_command (lit "estats") None estats_world))
      ++ [Print (10 :: lit "=== Work Mode ===");
          Print (lit "Current Mode     : Standard (Mode 1)");
          Print []].
Proof.
  assert (Hsend : send_command (lit "estats") None estats_world
                  = (Ok estats_reply,
                     snd (send_command (lit "estats") None estats_world)))
    by (vm_compute; reflexivity).
  destruct (proj1 (@get_work_mode_reports voltage_args _ _ _ Hsend)
                  (JObj [(lit "MM ID0",
                          JStr (lit "Ver[1246] WORKMODE[1] MPO[850] Fan1[3120]"))])
                  (lit "Ver[1246] WORKMODE[1] MPO[850] Fan1[3120]")
                  (lit "1") eq_refl eq_refl eq_refl) as [_ Ht].
  rewrite Ht. cbn [json_out voltage_args]. now rewrite app_nil_r.
Defined.

(** ** Which status entry counts *)

(** X16. [check_status] reads the first entry of the status list only:
    two responses whose status lists start with the same entry get the
    same verdict, whatever follows and whatever other sections they hold;
    and a bare status object gets the verdict of the one-element list that
    holds it.  So a list whose second entry says OK is still a failure. *)
Theorem check_status_first_entry (d d' : list (pystr * json))
        (first : json) (rest rest' : list json) :
  Dict.get (lit "STATUS") d = Some (JArr (first :: rest)) ->
  (Dict.get (lit "STATUS") d' = Some (JArr (first :: rest')) ->
   check_status (JObj d) = check_status (JObj d')) /\
  (forall entry,
      first = JObj entry -> entry <> [] ->
      Dict.get (lit "STATUS") d' = Some (JObj entry) ->
      check_status (JObj d) = check_status (JObj d')) /\
  check_status status_error_then_ok = Ok false.
Proof.
  intros Hd.
  assert (H1 : spec_firstOf (JObj d) (lit "STATUS") = Some first).
  { unfold spec_firstOf. now rewrite Hd. }
  split; [|split].
  - intros Hd'.
    assert (H2 : spec_firstOf (JObj d') (lit "STATUS") = Some first).
    { unfold spec_firstOf. now rewrite Hd'. }
    now rewrite (check_status_selected _ H1), (check_status_selected _ H2).
  - intros entry -> Hne Hd'.
    assert (H2 : spec_firstOf (JObj d') (lit "STATUS") = Some (JObj entry)).
    { unfold spec_firstOf. now rewrite Hd'. }
    now rewrite (check_status_selected _ H1), (check_status_selected _ H2).
  - reflexivity.
Qed.

Lemma check_status_first_entry_witness :
  check_status status_error_then_ok
  = check_status (JObj [(lit "STATUS",
                         JArr [JObj [(lit "Msg", JStr (lit "Error"))]]);
                        (lit "id", JInt 1)]).
Proof.
  unfold status_error_then_ok.
  refine (proj1 (@check_status_first_entry
                   [(lit "STATUS",
                     JArr [JObj [(lit "Msg", JStr (lit "Error"))];
                           JObj [(lit "Msg", JStr (lit "OK"))]])]
                   [(lit "STATUS",
                     JArr [JObj [(lit "Msg", JStr (lit "Error"))]]);
                    (lit "id", JInt 1)]
                   (JObj [(lit "Msg", JStr (lit "Error"))])
                   [JObj [(lit "Msg", JStr (lit "OK"))]] [] eq_refl)
                eq_refl).
Defined.

(** ** The normalisation of [cmd_info] *)

(** X17. The section reading of [cmd_info] differs from the guarded one.
    For LCD and SUMMARY it never raises on a response object and yields
    the first element of a non-empty list, but an empty object for
    everything else: a missing key, an empty list, and also a bare object,
    whose fields are dropped.  For VERSION it yields the first element of
    a non-empty list and an empty object for a missing key, and raises
    [IndexError] on an empty list and [KeyError] on a bare object. *)
Theorem cmd_info_normalisation (d : list (pystr * json)) (section : pystr) :
  (exists x, cmd_info_section (JObj d) section = Ok x) /\
  (forall x rest, Dict.get section d = Some (JArr (x :: rest)) ->
                  cmd_info_section (JObj d) section = Ok x) /\
  (forall v, Dict.get section d = Some v -> is_list v = false ->
             cmd_info_section (JObj d) section = Ok (JObj [])) /\
  (Dict.get section d = None \/ Dict.get section d = Some (JArr []) ->
   cmd_info_section (JObj d) section = Ok (JObj [])) /\
  (forall x rest, Dict.get (lit "VERSION") d = Some (JArr (x :: rest)) ->
                  cmd_info_ver (JObj d) = Ok x) /\
  (Dict.get (lit "VERSION") d = None -> cmd_info_ver (JObj d) = Ok (JObj [])) /\
  (Dict.get (lit "VERSION") d = Some (JArr []) ->
   cmd_info_ver (JObj d) = Raise IndexError) /\
  (forall o, Dict.get (lit "VERSION") d = Some (JObj o) ->
             cmd_info_ver (JObj d) = Raise KeyError).
Proof.
  unfold cmd_info_section, cmd_info_ver, py_get, bind.
  repeat split.
  - destruct (Dict.get section d) as [[| | | | |[|x l]|o]|]; cbn; eauto.
  - intros x rest H; rewrite H; reflexivity.
  - intros v H Hl; rewrite H. destruct v; try discriminate; reflexivity.
  - intros [H | H]; rewrite H; reflexivity.
  - intros x rest H; rewrite H; reflexivity.
  - intros H; rewrite H; reflexivity.
  - intros H; rewrite H; reflexivity.
  - intros o H; rewrite H; reflexivity.
Qed.

Lemma cmd_info_normalisation_witness :
  cmd_info_section lcd_bare_object (lit "LCD") = Ok (JObj []) /\
  cmd_info_ver version_bare_object = Raise KeyError.
Proof.
  split.
  - refine (proj1 (proj2 (proj2 (cmd_info_normalisation
                                   [(lit "LCD", JObj [(lit "a", JInt 1)])]
                                   (lit "LCD"))))
                  (JObj [(lit "a", JInt 1)]) eq_refl eq_refl).
  - refine (proj2 (proj2 (proj2 (proj2 (proj2 (proj2 (proj2
              (cmd_info_normalisation
                 [(lit "VERSION", JObj [(lit "MODEL", JStr (lit "1246"))])]
                 (lit "LCD"))))))))
              [(lit "MODEL", JStr (lit "1246"))] eq_refl).
Defined.

(** ** Sections and messages of an unexpected type *)

(** X18. The guard of the normalisation depends on the type of the section
    value: a number, a boolean or null makes [len] raise [TypeError]; a
    non-empty string passes the guard and is returned as it is; an empty
    string counts as absent; and a response that is not an object raises
    [TypeError] as soon as it holds the section name, since it cannot be
    indexed by it. *)
Theorem firstOf_unexpected_types (d : list (pystr * json))
        (section : pystr) :
  (forall v, Dict.get section d = Some v ->
             match v with
             | JNull | JBool _ | JInt _ | JFloat _ =>
                 firstOf (JObj d) section = Raise TypeError
             | JStr [] => firstOf (JObj d) section = Ok None
             | JStr (c :: s) =>
                 firstOf (JObj d) section = Ok (Some (JStr (c :: s)))
             | _ => True
             end) /\
  (forall items, existsb (is_str_eq section) items = true ->
                 firstOf (JArr items) section = Raise TypeError) /\
  (forall items, existsb (is_str_eq section) items = false ->
                 firstOf (JArr items) section = Ok None) /\
  firstOf JNull section = Raise TypeError.
Proof.
  unfold firstOf, py_in, py_getitem, bind. repeat split.
  - intros v H. rewrite H. destruct v as [| | | |[|c s]| |]; reflexivity.
  - intros items H. now rewrite H.
  - intros items H. now rewrite H.
Qed.

Lemma firstOf_unexpected_types_witness :
  firstOf (JObj [(lit "LCD", JInt 0)]) (lit "LCD") = Raise TypeError /\
  firstOf (JArr [JStr (lit "LCD")]) (lit "LCD") = Raise TypeError.
Proof.
  split.
  - exact (proj1 (firstOf_unexpected_types [(lit "LCD", JInt 0)] (lit "LCD"))
                 (JInt 0) eq_refl).
  - apply (proj1 (proj2 (firstOf_unexpected_types [] (lit "LCD")))).
    reflexivity.
Defined.

(** X19. [check_status] tests [in] on whatever the message is.  When the
    selected entry carries a list as its message, the verdict is true
    exactly when one of the list's elements is the string "OK" or the
    string "ASC 0 set OK"; when it carries a number, a boolean or null the
    test raises [TypeError]; and when the selected entry is not an object
    the lookup raises [AttributeError]. *)
Theorem check_status_message_types (d entry : list (pystr * json))
        (rest : list json) :
  Dict.get (lit "STATUS") d = Some (JArr (JObj entry :: rest)) ->
  (forall items,
      Dict.get (lit "Msg") entry = Some (JArr items) ->
      check_status (JObj d)
      = Ok (existsb (is_str_eq (lit "ASC 0 set OK")) items
            || existsb (is_str_eq (lit "OK")) items)) /\
  (forall v,
      Dict.get (lit "Msg") entry = Some v ->
      match v with
      | JNull | JBool _ | JInt _ | JFloat _ =>
          check_status (JObj d) = Raise TypeError
      | _ => True
      end) /\
  (forall d' x rest',
      Dict.get (lit "STATUS") d' = Some (JArr (x :: rest')) ->
      is_object x = false ->
      check_status (JObj d') = Raise AttributeError).
Proof.
  intros Hd.
  assert (Hsel : spec_firstOf (JObj d) (lit "STATUS") = Some (JObj entry)).
  { unfold spec_firstOf. now rewrite Hd. }
  rewrite (check_status_selected _ Hsel).
  unfold entry_verdict, py_get, bind. repeat split.
  - intros items Hm. rewrite Hm. cbn [py_in].
    destruct (existsb (is_str_eq (lit "ASC 0 set OK")) items);
      [reflexivity|].
    destruct (existsb (is_str_eq (lit "OK")) items); reflexivity.
  - intros v Hm. rewrite Hm. destruct v; try exact I; reflexivity.
  - intros d' x rest' Hd' Hx.
    assert (Hsel' : spec_firstOf (JObj d') (lit "STATUS") = Some x).
    { unfold spec_firstOf. now rewrite Hd'. }
    rewrite (check_status_selected _ Hsel').
    destruct x; try discriminate; reflexivity.
Qed.

Lemma check_status_message_types_witness :
  check_status
    (JObj [(lit "STATUS",
            JArr [JObj [(lit "Msg", JArr [JStr (lit "OK")])]])])
  = Ok true.
Proof.
  exact (proj1 (@check_status_message_types
                  [(lit "STATUS",
                    JArr [JObj [(lit "Msg", JArr [JStr (lit "OK")])]])]
                  [(lit "Msg", JArr [JStr (lit "OK")])] [] eq_refl)
               [JStr (lit "OK")] eq_refl).
Defined.
